(** * npystream: a streaming writer for NumPy [.npy] files

    Shallow embedding of [src/src/npystream.cpp] (the header codec and
    [wrap_up]) and of the class template [NpyStream] of
    [src/include/npystream/npystream.hpp], followed by the properties
    of the two-phase header protocol and of the record buffer.

    Conventions.
    - [unsigned char] / [char] are [Byte.byte]; a [std::vector<unsigned char>]
      is a [list byte].
    - [uint64_t], [size_t] and [int] values are [Z]; where the source
      computes in unsigned 64-bit arithmetic the wrap-around is written
      out with [wrap64].
    - [std::endian::native] is the parameter [native] of the functions
      that depend on it.
    - exceptions are the left injection of a sum type. *)

From Stdlib Require Import ZArith Lia Strings.String Strings.Byte Floats.SpecFloat.
From stdpp Require Import base list.

Local Open Scope Z_scope.

(** ** Bytes and machine integers *)

Definition byte_of_Z (z : Z) : byte :=
  match Byte.of_N (Z.to_N (z mod 256)) with
  | Some b => b
  | None => x00
  end.

Definition Z_of_byte (b : byte) : Z := Z.of_N (Byte.to_N b).

Definition UINT64_MAX : Z := 2 ^ 64 - 1.

Definition wrap64 (z : Z) : Z := z mod 2 ^ 64.

(** [std::endian::native]; the [static_assert] at the top of
    npystream.cpp rejects every other value. *)
Inductive endian : Type := Little | Big.

(** The [n] low-order bytes of [z], least significant first. *)
Fixpoint le_bytes (n : nat) (z : Z) : list byte :=
  match n with
  | O => []
  | S n' => byte_of_Z z :: le_bytes n' (z / 256)
  end.

(** The object representation of an [n]-byte integer (what [memcpy]
    from its address yields). *)
Definition native_bytes (native : endian) (n : nat) (z : Z) : list byte :=
  match native with
  | Little => le_bytes n z
  | Big => rev (le_bytes n z)
  end.

Definition bytes (s : string) : list byte := list_byte_of_string s.

Definition space : byte := x20.
Definition newline : byte := x0a.

(** ** [std::to_string] on unsigned 64-bit values

    The decimal digits, most significant first, without leading zeros;
    a 64-bit value has at most twenty of them, which is the fuel of
    the loop ([to_string_spec] below: every value up to [UINT64_MAX] is
    printed in full). *)

Fixpoint to_string_digits (fuel : nat) (n : Z) (acc : list byte) : list byte :=
  match fuel with
  | O => acc
  | S fuel' =>
      let acc' := byte_of_Z (48 + n mod 10) :: acc in
      if n / 10 =? 0 then acc' else to_string_digits fuel' (n / 10) acc'
  end.

Definition to_string (n : Z) : list byte := to_string_digits 20 n [].

(** ** Errors

    Every [throw] of the two source files, and the two ways in which
    [wrap_up] can stop without patching the file. *)
Inductive error : Type :=
  | LayoutMismatch
      (* runtime_error: labels size does not match number of elements in
         structured type (NpyStream::init) *)
  | SizesNotEqual
      (* runtime_error: create_npy_header: sizes of argument vectors not equal *)
  | HeaderTooLarge
      (* runtime_error: dictionary too large for .npy header *)
  | LengthError
      (* std::length_error of vector::insert *)
  | AssertionFailed.
      (* assert(updated_header.size() == header_end_pos) *)

Definition result (A : Type) : Type := sum error A.

(** ** The header codec (npystream.cpp) *)

Inductive MemoryOrder : Type := Fortran | C.

(** [append(vec, string_view)] *)
Definition append_view (vec : list byte) (view : list byte) : list byte :=
  vec ++ view.

Definition native_endian_symbol (native : endian) : byte :=
  match native with
  | Little => x3c
  | Big => x3e
  end.

(** [append<T>(lhs, rhs)] at [T = uint16_t]: the object representation,
    reversed on a big-endian host. *)
Definition append_uint16 (native : endian) (lhs : list byte) (rhs : Z) : list byte :=
  let buffer := native_bytes native 2 rhs in
  match native with
  | Big => lhs ++ rev buffer
  | Little => lhs ++ buffer
  end.

Definition finalize_header (native : endian) (dict : list byte) : result (list byte) :=
  let remainder := 16 - (10 + Z.of_nat (length dict)) mod 16 in
  let dict := dict ++ replicate (Z.to_nat remainder) space in
  let dict := <[ (length dict - 1)%nat := newline ]> dict in
  if 65535 <? Z.of_nat (length dict) then inl HeaderTooLarge
  else
    let header := [x93] in
    let header := append_view header (bytes "NUMPY") in
    let header := header ++ [x01] in
    let header := header ++ [x00] in
    let header := append_uint16 native header (Z.of_nat (length dict) mod 65536) in
    inr (header ++ dict).

Definition memory_order_token (memory_order : MemoryOrder) : list byte :=
  match memory_order with
  | C => bytes "False"
  | Fortran => bytes "True"
  end.

(** The tail shared by both overloads: from the shape to the closing
    brace.  [shape[0]] is read unconditionally; the streams always pass
    a one-element shape. *)
Definition append_shape (dict : list byte) (shape : list Z) : list byte :=
  let dict := append_view dict (bytes ", 'shape': (") in
  let dict := append_view dict (to_string (nth 0 shape 0)) in
  let dict :=
    fold_left (fun d i => append_view (append_view d (bytes ", ")) (to_string (nth i shape 0)))
              (seq 1 (length shape - 1)) dict in
  let dict := if (length shape =? 1)%nat then append_view dict (bytes ",") else dict in
  append_view dict (bytes "), }").

(** One iteration of the loop over the fields. *)
Definition append_field (native : endian) (labels : list (list byte))
    (dtypes : list byte) (sizes : list Z) (dict : list byte) (i : nat) : list byte :=
  let label := nth i labels [] in
  let dtype := nth i dtypes x00 in
  let size := nth i sizes 0 in
  let dict := append_view dict (bytes "('") in
  let dict := append_view dict label in
  let dict := append_view dict (bytes "', '") in
  let dict := dict ++ [native_endian_symbol native] in
  let dict := dict ++ [dtype] in
  let dict := append_view dict (to_string size) in
  let dict := append_view dict (bytes "')") in
  if (i + 1 =? length dtypes)%nat then dict else append_view dict (bytes ", ").

(** The dictionary of the structured overload, before padding. *)
Definition structured_dict (native : endian) (shape : list Z) (labels : list (list byte))
    (dtypes : list byte) (sizes : list Z) (memory_order : MemoryOrder) : list byte :=
  let dict := append_view [] (bytes "{'descr': [") in
  let dict := fold_left (append_field native labels dtypes sizes) (seq 0 (length dtypes)) dict in
  let dict := if (length dtypes =? 1)%nat then dict ++ [x2c] else dict in
  let dict := append_view dict (bytes "], 'fortran_order': ") in
  let dict := append_view dict (memory_order_token memory_order) in
  append_shape dict shape.

(** [create_npy_header(shape, labels, dtypes, sizes, memory_order)] *)
Definition create_npy_header_structured (native : endian) (shape : list Z)
    (labels : list (list byte)) (dtypes : list byte) (sizes : list Z)
    (memory_order : MemoryOrder) : result (list byte) :=
  if negb (length labels =? length dtypes)%nat
     || negb (length dtypes =? length sizes)%nat
     || negb (length sizes =? length labels)%nat
  then inl SizesNotEqual
  else finalize_header native (structured_dict native shape labels dtypes sizes memory_order).

(** The dictionary of the scalar overload, before padding. *)
Definition scalar_dict (native : endian) (shape : list Z) (dtype : byte) (wordsize : Z)
    (memory_order : MemoryOrder) : list byte :=
  let dict := append_view [] (bytes "{'descr': '") in
  let dict := dict ++ [native_endian_symbol native] in
  let dict := dict ++ [dtype] in
  let dict := append_view dict (to_string wordsize) in
  let dict := append_view dict (bytes "', 'fortran_order': ") in
  let dict := append_view dict (memory_order_token memory_order) in
  append_shape dict shape.

(** [create_npy_header(shape, dtype, wordsize, memory_order)] *)
Definition create_npy_header (native : endian) (shape : list Z) (dtype : byte)
    (wordsize : Z) (memory_order : MemoryOrder) : result (list byte) :=
  finalize_header native (scalar_dict native shape dtype wordsize memory_order).

(** ** Scalar types and their object representation

    [npy_serializable] admits the arithmetic types and [std::complex]
    of a floating-point type. *)

Inductive width : Type := W1 | W2 | W4 | W8.

Definition width_bytes (w : width) : nat :=
  match w with W1 => 1 | W2 => 2 | W4 => 4 | W8 => 8 end%nat.

Inductive precision : Type := Single | Double.

Inductive scalar_type : Type :=
  | TInt (w : width)
  | TUInt (w : width)
  | TFloat (p : precision)
  | TComplex (p : precision).

Definition float_bytes (p : precision) : nat :=
  match p with Single => 4 | Double => 8 end%nat.

(** [sizeof(T)] *)
Definition sizeof (t : scalar_type) : nat :=
  match t with
  | TInt w | TUInt w => width_bytes w
  | TFloat p => float_bytes p
  | TComplex p => (2 * float_bytes p)%nat
  end.

(** Modelled from the spec: [map_type] of the header map_type.hpp, which
    is not part of the sources at hand.  It returns the one-character
    NumPy type code of a scalar type: signed integer, unsigned integer,
    floating point or complex. *)
Definition map_type (t : scalar_type) : byte :=
  match t with
  | TInt _ => "i"
  | TUInt _ => "u"
  | TFloat _ => "f"
  | TComplex _ => "c"
  end%byte.

(** A value of a scalar type.  Integers carry their mathematical value,
    floating-point numbers their IEEE 754 value. *)
Inductive scalar : Type :=
  | VInt (w : width) (v : Z)
  | VUInt (w : width) (v : Z)
  | VFloat (p : precision) (f : spec_float)
  | VComplex (p : precision) (re im : spec_float).

Definition type_of (v : scalar) : scalar_type :=
  match v with
  | VInt w _ => TInt w
  | VUInt w _ => TUInt w
  | VFloat p _ => TFloat p
  | VComplex p _ _ => TComplex p
  end.

Definition float_prec (p : precision) : Z :=
  match p with Single => 24 | Double => 53 end.

Definition float_emax (p : precision) : Z :=
  match p with Single => 128 | Double => 1024 end.

Definition float_ebits (p : precision) : Z :=
  match p with Single => 8 | Double => 11 end.

(** The IEEE 754 binary interchange encoding of a floating-point value:
    sign bit, biased exponent, trailing significand.  [spec_float] has
    a single NaN; it is given the encoding of the default quiet NaN. *)
Definition float_bits (p : precision) (f : spec_float) : Z :=
  let mw := float_prec p - 1 in
  let sign (s : bool) := if s then 2 ^ (mw + float_ebits p) else 0 in
  let emask := (2 ^ float_ebits p - 1) * 2 ^ mw in
  match f with
  | S754_zero s => sign s
  | S754_infinity s => sign s + emask
  | S754_nan => emask + 2 ^ (mw - 1)
  | S754_finite s m e =>
      if Z.pos m <? 2 ^ mw then sign s + Z.pos m
      else sign s + (e + mw + float_emax p - 1) * 2 ^ mw + (Z.pos m - 2 ^ mw)
  end.

(** The bytes that [memcpy] reads from the address of a value. *)
Definition object_repr (native : endian) (v : scalar) : list byte :=
  match v with
  | VInt w z | VUInt w z => native_bytes native (width_bytes w) z
  | VFloat p f => native_bytes native (float_bytes p) (float_bits p f)
  | VComplex p re im =>
      native_bytes native (float_bytes p) (float_bits p re)
      ++ native_bytes native (float_bytes p) (float_bits p im)
  end.

(** ** [tuple_info]

    Modelled from the spec: the header tuple_util.hpp is not part of the
    sources at hand.  The tuple-layout introspector returns each field's
    byte size and its byte offset within one serialized record
    (sequential packing, no alignment padding) and the total record
    stride. *)

Definition data_types (tuple_type : list scalar_type) : list byte :=
  map_type <$> tuple_type.

Definition element_sizes (tuple_type : list scalar_type) : list Z :=
  (fun t => Z.of_nat (sizeof t)) <$> tuple_type.

Definition sum_sizes (tuple_type : list scalar_type) : nat :=
  foldr (fun t acc => (sizeof t + acc)%nat) 0%nat tuple_type.

Fixpoint offsets_from (off : nat) (tuple_type : list scalar_type) : list nat :=
  match tuple_type with
  | [] => []
  | t :: rest => off :: offsets_from (off + sizeof t) rest
  end.

Definition offsets (tuple_type : list scalar_type) : list nat :=
  offsets_from 0 tuple_type.

(** ** [std::ofstream]

    The bytes of the file behind the stream and the put position.
    Writes and seeks are taken to succeed.  [seekp] is only ever called
    with 0, so the put position never lies beyond the end of the file. *)

Record ofstream : Type := { content : list byte; pos : nat }.

(** [file.open(path, std::ios_base::binary)]: creates or truncates. *)
Definition file_open : ofstream := {| content := []; pos := 0 |}.

Definition file_write (f : ofstream) (data : list byte) : ofstream :=
  {| content := take (pos f) (content f) ++ data
                ++ drop (pos f + length data) (content f);
     pos := pos f + length data |}.

Definition seekp (f : ofstream) (p : nat) : ofstream :=
  {| content := content f; pos := p |}.

(** ** [wrap_up] (npystream.cpp) *)

(** [std::vector<unsigned char>::max_size()] *)
Definition vector_max_size : Z := 2 ^ 63 - 1.

(** The in-memory part of [wrap_up]: pad the freshly rendered header
    before its last byte and store the two length bytes. *)
Definition patch_header (header_end_pos : Z) (updated_header : list byte)
    : result (list byte) :=
  let len_missing_padding := wrap64 (header_end_pos - Z.of_nat (length updated_header)) in
  let count := Z.max 0 len_missing_padding in
  if vector_max_size <? Z.of_nat (length updated_header) + count then inl LengthError
  else
    let last := (length updated_header - 1)%nat in
    let updated_header :=
      take last updated_header ++ replicate (Z.to_nat count) space
      ++ drop last updated_header in
    let size := Z.of_nat (length updated_header) in
    let updated_header := <[ 7%nat := byte_of_Z (wrap64 (size - 10) / 256) ]> updated_header in
    let updated_header := <[ 8%nat := byte_of_Z (wrap64 (size - 10) mod 256) ]> updated_header in
    if size =? header_end_pos then inr updated_header else inl AssertionFailed.

(** The header [wrap_up] renders for [values_written] records: the
    scalar overload when there are no labels, the structured one
    otherwise. *)
Definition render_header (native : endian) (values_written : Z)
    (labels : list (list byte)) (dtypes : list byte) (element_sizes : list Z)
    : result (list byte) :=
  if (length labels =? 0)%nat then
    create_npy_header native [values_written] (nth 0 dtypes x00) (nth 0 element_sizes 0) C
  else
    create_npy_header_structured native [values_written] labels dtypes element_sizes C.

Definition wrap_up (native : endian) (file : ofstream) (values_written : Z)
    (header_end_pos : Z) (labels : list (list byte)) (dtypes : list byte)
    (element_sizes : list Z) : result ofstream :=
  match render_header native values_written labels dtypes element_sizes with
  | inl e => inl e
  | inr updated_header =>
      match patch_header header_end_pos updated_header with
      | inl e => inl e
      | inr updated_header =>
          let file := seekp file 0 in
          inr (file_write file updated_header)
      end
  end.

(** ** The class template [NpyStream<T, TArgs...>] (npystream.hpp) *)

Record NpyStream : Type := {
  file : ofstream;
  header_end_pos : Z;
  values_written : Z;
  buffer_size : Z;
  labels : list (list byte);
  buffer : list (list byte)
}.

(** [std::copy(first, last, d_first)] into a byte array, [d_first]
    being [off] bytes into it. *)
Definition copy_at (off : nat) (src dst : list byte) : list byte :=
  take off dst ++ src ++ drop (off + length src) dst.

(** What a stream does to it: one tuple through [operator<<], one
    contiguous block through [write(std::span)], or [flush_buffer]. *)
Inductive operation : Type :=
  | Put (val : list scalar)
  | WriteSpan (data : list scalar)
  | Flush.

Section NpyStream.

Variable native : endian.
Variable T : scalar_type.
Variable TArgs : list scalar_type.

Definition tuple_type : list scalar_type := T :: TArgs.

Definition dtypes : list byte := data_types tuple_type.
Definition sizes : list Z := element_sizes tuple_type.

Definition buffer_capacity : Z :=
  Z.max 1 (256 / Z.of_nat (sum_sizes tuple_type)).

(** [std::format("f{}", i)] for [i] below the tuple size. *)
Definition default_labels : list (list byte) :=
  (fun i => bytes "f" ++ to_string (Z.of_nat i)) <$> seq 0 (length tuple_type).

(** [init(path)], run by both constructors once [labels] is set.
    [disk] is what the path holds before the call ([None]: no such
    file); the first component of the result is what it holds after. *)
Definition init (labels : list (list byte)) (disk : option (list byte))
    : option (list byte) * result NpyStream :=
  let max_elements := UINT64_MAX in
  let tuple_size := length tuple_type in
  let rendered :=
    if (length labels =? 0)%nat then
      if (tuple_size =? 1)%nat then
        create_npy_header native [max_elements] (map_type T) (Z.of_nat (sizeof T)) C
      else inl LayoutMismatch
    else if negb (length labels =? tuple_size)%nat then inl LayoutMismatch
    else create_npy_header_structured native [max_elements] labels dtypes sizes C in
  match rendered with
  | inl e => (disk, inl e)
  | inr header =>
      let header_end_pos := Z.of_nat (length header) in
      let header := take 8 header ++ replicate (length header - 8) x00 in
      let file := file_open in
      let file := file_write file header in
      (Some (content file),
       inr {| file := file;
              header_end_pos := header_end_pos;
              values_written := 0;
              buffer_size := 0;
              labels := labels;
              buffer := replicate (Z.to_nat buffer_capacity)
                          (replicate (sum_sizes tuple_type) x00) |})
  end.

(** [NpyStream(path)] *)
Definition NpyStream_path (disk : option (list byte))
    : option (list byte) * result NpyStream :=
  init (if (1 <? length tuple_type)%nat then default_labels else []) disk.

(** [NpyStream(path, labels_)] *)
Definition NpyStream_path_labels (labels_ : list (list byte))
    (disk : option (list byte)) : option (list byte) * result NpyStream :=
  init labels_ disk.

(** [fill<U, k>(tup, buffer)]: the elements from the [k]-th on, each
    copied to its offset within the record. *)
Fixpoint fill_from (offs : list nat) (k : nat) (elems : list scalar)
    (buffer : list byte) : list byte :=
  match elems with
  | [] => buffer
  | elem :: rest =>
      let tmp := object_repr native elem in
      fill_from offs (k + 1) rest (copy_at (nth k offs 0%nat) tmp buffer)
  end.

Definition fill (tup : list scalar) (buffer : list byte) : list byte :=
  fill_from (offsets (type_of <$> tup)) 0 tup buffer.

Definition flush_buffer (s : NpyStream) : NpyStream :=
  let count := wrap64 (buffer_size s * Z.of_nat (sum_sizes tuple_type)) in
  {| file := file_write (file s) (take (Z.to_nat count) (concat (buffer s)));
     header_end_pos := header_end_pos s;
     values_written := values_written s;
     buffer_size := 0;
     labels := labels s;
     buffer := buffer s |}.

(** [operator<<(Tup const& val)]; the scalar overload forwards to it
    with a one-element tuple. *)
Definition put (s : NpyStream) (val : list scalar) : NpyStream :=
  let s := {| file := file s;
              header_end_pos := header_end_pos s;
              values_written := values_written s;
              buffer_size := wrap64 (buffer_size s + 1);
              labels := labels s;
              buffer := alter (fill val) (Z.to_nat (buffer_size s)) (buffer s) |} in
  let s := if buffer_size s =? buffer_capacity then flush_buffer s else s in
  {| file := file s;
     header_end_pos := header_end_pos s;
     values_written := wrap64 (values_written s + 1);
     buffer_size := buffer_size s;
     labels := labels s;
     buffer := buffer s |}.

(** [write(std::span<U const> data)], offered when [TArgs] is empty. *)
Definition write (s : NpyStream) (data : list scalar) : NpyStream :=
  let s := if negb (buffer_size s =? 0) then flush_buffer s else s in
  let count := wrap64 (Z.of_nat (sizeof T) * Z.of_nat (length data)) in
  {| file := file_write (file s)
               (take (Z.to_nat count) (concat (object_repr native <$> data)));
     header_end_pos := header_end_pos s;
     values_written := wrap64 (values_written s + Z.of_nat (length data));
     buffer_size := buffer_size s;
     labels := labels s;
     buffer := buffer s |}.

(** [~NpyStream()]: the file as the destructor leaves it. *)
Definition close (s : NpyStream) : result ofstream :=
  let s := flush_buffer s in
  wrap_up native (file s) (values_written s) (header_end_pos s) (labels s) dtypes sizes.

Definition step (s : NpyStream) (o : operation) : NpyStream :=
  match o with
  | Put val => put s val
  | WriteSpan data => write s data
  | Flush => flush_buffer s
  end.

Definition run (s : NpyStream) (ops : list operation) : NpyStream :=
  fold_left step ops s.

(** The constraints the template puts on the arguments.  [write]
    exists only for a stream of scalars, and its span holds values of
    type [T] that lie in memory, so that its size in bytes is a
    [size_t].
    Modelled from the spec: the concept [convertible] that guards
    [operator<<] is declared in tuple_util.hpp, which is not part of the
    sources at hand.  The record's field types must exactly match the
    layout's declared types. *)
Definition operation_ok (o : operation) : Prop :=
  match o with
  | Put val => type_of <$> val = tuple_type
  | WriteSpan data =>
      TArgs = [] /\ Forall (fun v => type_of v = T) data
      /\ Z.of_nat (sizeof T) * Z.of_nat (length data) <= UINT64_MAX
  | Flush => True
  end.

(** The records an operation appends. *)
Definition records_of (o : operation) : list (list scalar) :=
  match o with
  | Put val => [val]
  | WriteSpan data => (fun v => [v]) <$> data
  | Flush => []
  end.

Definition records (ops : list operation) : list (list scalar) :=
  concat (records_of <$> ops).

(** One serialized record: the fields in declared order. *)
Definition record_bytes (val : list scalar) : list byte :=
  concat (object_repr native <$> val).

End NpyStream.

(** ** Reading a header back

    The element count a header declares: the decimal number that closes
    the shape tuple, found from the end of the header (newline, padding
    spaces, the closing [",), }"], then the digits up to the opening
    parenthesis). *)

Definition is_digit (b : byte) : bool :=
  (48 <=? Z_of_byte b) && (Z_of_byte b <=? 57).

Definition decimal_value (digits : list byte) : Z :=
  fold_left (fun acc d => 10 * acc + (Z_of_byte d - 48)) digits 0.

Fixpoint drop_while (p : byte -> bool) (l : list byte) : list byte :=
  match l with
  | [] => []
  | b :: l' => if p b then drop_while p l' else l
  end.

Fixpoint take_while (p : byte -> bool) (l : list byte) : list byte :=
  match l with
  | [] => []
  | b :: l' => if p b then b :: take_while p l' else []
  end.

Fixpoint strip_prefix (p l : list byte) : option (list byte) :=
  match p, l with
  | [], _ => Some l
  | a :: p', b :: l' => if Byte.eqb a b then strip_prefix p' l' else None
  | _ :: _, [] => None
  end.

Definition declared_count (header : list byte) : option Z :=
  match rev header with
  | b :: r =>
      if Byte.eqb b newline then
        match strip_prefix (rev (bytes ",), }")) (drop_while (Byte.eqb space) r) with
        | Some r =>
            match take_while is_digit r, drop_while is_digit r with
            | d :: ds, b :: _ =>
                if Byte.eqb b "("%byte then Some (decimal_value (rev (d :: ds))) else None
            | _, _ => None
            end
        | None => None
        end
      else None
  | [] => None
  end.

(** The magic string and the version of the format: header bytes 0 to 7. *)
Definition preamble : list byte := [x93] ++ bytes "NUMPY" ++ [x01; x00].

(** What [init] puts on disk: the preamble, then zeros up to the end of
    the reserved header. *)
Definition blank_header (header_end_pos : nat) : list byte :=
  preamble ++ replicate (header_end_pos - 8) x00.

Global Arguments blank_header : simpl never.

(** The value 2.5 in single precision. *)
Definition float_2_5 : spec_float := binary_normalize 24 128 5 (-1) false.


(** ** Sample streams *)

Definition double_of_Z (z : Z) : scalar :=
  VFloat Double (binary_normalize 53 1024 z 0 false).

(** [NpyStream<double>] as its constructor leaves it. *)
Definition double_stream : NpyStream :=
  {| file := {| content := blank_header 96; pos := 96 |};
     header_end_pos := 96;
     values_written := 0;
     buffer_size := 0;
     labels := [];
     buffer := replicate 32 (replicate 8 x00) |}.

(** [NpyStream<int32_t, float>] with the labels a and b, as its
    constructor leaves it. *)
Definition int_float_stream : NpyStream :=
  {| file := {| content := blank_header 112; pos := 112 |};
     header_end_pos := 112;
     values_written := 0;
     buffer_size := 0;
     labels := [bytes "a"; bytes "b"];
     buffer := replicate 32 (replicate 8 x00) |}.

(** [NpyStream<std::complex<double>>] as its constructor leaves it,
    and the value 0 + 0i. *)
Definition complex_stream : NpyStream :=
  {| file := {| content := blank_header 96; pos := 96 |};
     header_end_pos := 96;
     values_written := 0;
     buffer_size := 0;
     labels := [];
     buffer := replicate 16 (replicate 16 x00) |}.

Definition complex_zero : scalar :=
  VComplex Double (S754_zero false) (S754_zero false).

(** The template arguments after the first of a stream of twelve
    [double] columns. *)
Definition eleven_doubles : list scalar_type := replicate 11 (TFloat Double).

(** ** Invariants of an open stream *)

Section Invariants.

Variable native : endian.
Variable T : scalar_type.
Variable TArgs : list scalar_type.

(** What holds of every stream whatever is sent to it: the buffer
    index is in range, the put position is the end of the file, and
    the file starts with the [n] bytes that [init] wrote. *)
Record stream_inv (n : nat) (lbls : list (list byte)) (s : NpyStream) : Prop := {
  inv_n : (8 <= n)%nat;
  inv_header_end_pos : header_end_pos s = Z.of_nat n;
  inv_labels : labels s = lbls;
  inv_buffer_size : 0 <= buffer_size s < buffer_capacity T TArgs;
  inv_buffer : length (buffer s) = Z.to_nat (buffer_capacity T TArgs);
  inv_pos : pos (file s) = length (content (file s));
  inv_head : take n (content (file s)) = blank_header n
}.

(** What holds in addition when the values sent have the types of the
    stream: the file and the filled part of the buffer hold the
    records [recs], in order, and [values_written] counts them. *)
Record data_inv (n : nat) (recs : list (list scalar)) (s : NpyStream) : Prop := {
  inv_slots : Forall (fun slot => length slot = sum_sizes (tuple_type T TArgs)) (buffer s);
  inv_values_written : values_written s = wrap64 (Z.of_nat (length recs));
  inv_data : content (file s) ++ concat (take (Z.to_nat (buffer_size s)) (buffer s))
             = blank_header n ++ concat (record_bytes native <$> recs)
}.

End Invariants.

(** ** The remaining members *)

(** [append<T>(lhs, rhs)] for an integral type of [n] bytes: the object
    representation of [rhs], reversed on a big-endian host. *)
Definition append_integral (native : endian) (n : nat) (lhs : list byte) (rhs : Z)
    : list byte :=
  let buffer := native_bytes native n rhs in
  match native with
  | Big => lhs ++ rev buffer
  | Little => lhs ++ buffer
  end.

(** [operator<<(U val)], offered when [TArgs] is empty: forwards a
    one-element tuple. *)
Definition put_scalar (native : endian) (T : scalar_type) (TArgs : list scalar_type)
    (s : NpyStream) (val : scalar) : NpyStream :=
  put native T TArgs s [val].

(** [write(TConstIter begin, TConstIter end)] on a contiguous range:
    forwards the range as a span. *)
Definition write_contiguous (native : endian) (T : scalar_type) (TArgs : list scalar_type)
    (s : NpyStream) (data : list scalar) : NpyStream :=
  write native T TArgs s data.

(** [write(TConstIter begin, Sentinel end)] on any other range: one
    [operator<<] per element. *)
Definition write_iter (native : endian) (T : scalar_type) (TArgs : list scalar_type)
    (s : NpyStream) (vals : list (list scalar)) : NpyStream :=
  fold_left (put native T TArgs) vals s.

(** ** Reading bytes back *)

(** The number a little-endian byte string stands for. *)
Definition le_value (bs : list byte) : Z :=
  foldr (fun b acc => Z_of_byte b + 256 * acc) 0 bs.

(** The dictionary length a header announces: bytes 8 and 9, least
    significant first. *)
Definition length_field (header : list byte) : Z :=
  le_value (take 2 (drop 8 header)).

(** Parts separated by [sep]. *)
Fixpoint join_with (sep : list byte) (parts : list (list byte)) : list byte :=
  match parts with
  | [] => []
  | p :: ps =>
      match ps with
      | [] => p
      | _ :: _ => p ++ sep ++ join_with sep ps
      end
  end.

(** One field of a structured dictionary: label, byte-order marker,
    type code and size. *)
Definition field_entry (native : endian) (field : list byte * byte * Z) : list byte :=
  bytes "('" ++ field.1.1 ++ bytes "', '"
  ++ [native_endian_symbol native; field.1.2] ++ to_string field.2 ++ bytes "')".

(** * Properties *)

(** ** Bytes *)

Lemma Z_of_byte_of_Z (z : Z) : Z_of_byte (byte_of_Z z) = z mod 256.
Proof.
  unfold Z_of_byte, byte_of_Z.
  pose proof (Z.mod_pos_bound z 256 eq_refl) as Hb.
  destruct (Byte.of_N (Z.to_N (z mod 256))) as [b|] eqn:E.
  - apply Byte.to_of_N in E. rewrite E. lia.
  - apply Byte.of_N_None_iff in E. lia.
Qed.

Lemma length_le_bytes (n : nat) (z : Z) : length (le_bytes n z) = n.
Proof. revert z. induction n as [|n IH]; intros z; simpl; [|rewrite IH]; reflexivity. Qed.

Lemma length_native_bytes (native : endian) (n : nat) (z : Z) :
  length (native_bytes native n z) = n.
Proof.
  destruct native; simpl; [|rewrite length_rev]; apply length_le_bytes.
Qed.

Lemma length_object_repr (native : endian) (v : scalar) :
  length (object_repr native v) = sizeof (type_of v).
Proof.
  destruct v; simpl; rewrite ?length_app, ?length_native_bytes; lia.
Qed.

(** The two length bytes come out least significant first on either
    kind of host. *)
Lemma append_uint16_little_endian (native : endian) (lhs : list byte) (rhs : Z) :
  append_uint16 native lhs rhs = lhs ++ [byte_of_Z rhs; byte_of_Z (rhs / 256)].
Proof. destruct native; reflexivity. Qed.

(** ** Decimal digits *)

Lemma decimal_value_snoc (ds : list byte) (d : byte) :
  decimal_value (ds ++ [d]) = 10 * decimal_value ds + (Z_of_byte d - 48).
Proof. unfold decimal_value. rewrite fold_left_app. reflexivity. Qed.

Lemma digit_byte (d : Z) :
  0 <= d < 10 ->
  Z_of_byte (byte_of_Z (48 + d)) = 48 + d /\ is_digit (byte_of_Z (48 + d)) = true.
Proof.
  intros Hd. unfold is_digit. rewrite Z_of_byte_of_Z.
  rewrite Z.mod_small by lia. split; [reflexivity|].
  apply andb_true_intro. split; apply Z.leb_le; lia.
Qed.

Lemma to_string_digits_length (fuel : nat) (n : Z) (acc : list byte) :
  (length (to_string_digits fuel n acc) <= fuel + length acc)%nat.
Proof.
  revert n acc. induction fuel as [|fuel IH]; intros n acc; simpl; [lia|].
  destruct (n / 10 =? 0); simpl; [lia|].
  etransitivity; [apply IH|]. simpl. lia.
Qed.

Lemma to_string_digits_spec (fuel : nat) (n : Z) (acc : list byte) :
  (0 < fuel)%nat -> 0 <= n < 10 ^ Z.of_nat fuel ->
  exists ds, to_string_digits fuel n acc = ds ++ acc
             /\ decimal_value ds = n
             /\ Forall (fun d => is_digit d = true) ds
             /\ ds <> [].
Proof.
  revert n acc. induction fuel as [|fuel IH]; intros n acc Hf Hn; [lia|].
  simpl to_string_digits.
  assert (Hm : 0 <= n mod 10 < 10) by (apply Z.mod_pos_bound; lia).
  destruct (digit_byte _ Hm) as [Hv Hd].
  destruct (n / 10 =? 0) eqn:Hq.
  - apply Z.eqb_eq in Hq.
    exists [byte_of_Z (48 + n mod 10)]. repeat split.
    + unfold decimal_value. simpl. rewrite Hv.
      pose proof (Z.div_mod n 10). lia.
    + constructor; [exact Hd|constructor].
    + discriminate.
  - apply Z.eqb_neq in Hq.
    assert (Hn' : 0 <= n / 10 < 10 ^ Z.of_nat fuel).
    { split; [apply Z.div_pos; lia|].
      apply Z.div_lt_upper_bound; [lia|].
      replace (Z.of_nat (S fuel)) with (Z.succ (Z.of_nat fuel)) in Hn by lia.
      rewrite Z.pow_succ_r in Hn by lia. lia. }
    assert (Hf' : (0 < fuel)%nat).
    { destruct fuel; [|lia]. simpl in Hn'. lia. }
    destruct (IH (n / 10) (byte_of_Z (48 + n mod 10) :: acc) Hf' Hn')
      as (ds & Heq & Hval & Hall & Hne).
    exists (ds ++ [byte_of_Z (48 + n mod 10)]). repeat split.
    + rewrite Heq, <- app_assoc. reflexivity.
    + rewrite decimal_value_snoc, Hval, Hv.
      pose proof (Z.div_mod n 10). lia.
    + apply Forall_app. split; [exact Hall|]. constructor; [exact Hd|constructor].
    + destruct ds; discriminate.
Qed.

Lemma to_string_length (n : Z) : (length (to_string n) <= 20)%nat.
Proof.
  unfold to_string. etransitivity; [apply to_string_digits_length|]. simpl. lia.
Qed.

Lemma to_string_UINT64_MAX : length (to_string UINT64_MAX) = 20%nat.
Proof. reflexivity. Qed.

(** [std::to_string] prints a 64-bit value in full. *)
Lemma to_string_spec (n : Z) :
  0 <= n <= UINT64_MAX ->
  decimal_value (to_string n) = n
  /\ Forall (fun d => is_digit d = true) (to_string n)
  /\ to_string n <> [].
Proof.
  intros Hn. unfold to_string.
  destruct (to_string_digits_spec 20 n []) as (ds & Heq & Hval & Hall & Hne).
  - lia.
  - unfold UINT64_MAX in Hn. simpl. lia.
  - rewrite app_nil_r in Heq. rewrite Heq. auto.
Qed.

(** ** Reading the count back *)

Lemma rev_replicate {A : Type} (n : nat) (x : A) : rev (replicate n x) = replicate n x.
Proof.
  induction n as [|n IH]; [reflexivity|].
  simpl. rewrite IH. symmetry. apply replicate_cons_app.
Qed.

Lemma drop_while_replicate (p : byte -> bool) (n : nat) (x : byte) (rest : list byte) :
  p x = true -> drop_while p (replicate n x ++ rest) = drop_while p rest.
Proof. intros Hp. induction n as [|n IH]; simpl; [|rewrite Hp]; auto. Qed.

Lemma strip_prefix_app (p l : list byte) : strip_prefix p (p ++ l) = Some l.
Proof.
  induction p as [|a p IH]; simpl; [reflexivity|].
  rewrite (Byte.byte_dec_lb (x:=a) (y:=a) eq_refl). exact IH.
Qed.

Lemma take_drop_while_digits (ds : list byte) (b : byte) (rest : list byte) :
  Forall (fun d => is_digit d = true) ds -> is_digit b = false ->
  take_while is_digit (ds ++ b :: rest) = ds
  /\ drop_while is_digit (ds ++ b :: rest) = b :: rest.
Proof.
  intros Hds Hb. induction Hds as [|d ds Hd _ IH]; simpl.
  - rewrite Hb. auto.
  - rewrite Hd. destruct IH as [-> ->]. auto.
Qed.

Lemma declared_count_spec (front ds : list byte) (p : nat) :
  Forall (fun d => is_digit d = true) ds -> ds <> [] ->
  declared_count (front ++ bytes "(" ++ ds ++ bytes ",), }" ++ replicate p space ++ [newline])
  = Some (decimal_value ds).
Proof.
  intros Hds Hne. unfold declared_count.
  rewrite !rev_app_distr, rev_replicate, <- !app_assoc.
  change (rev [newline]) with [newline]. cbn [app].
  change (Byte.eqb newline newline) with true. cbv iota.
  rewrite drop_while_replicate by reflexivity.
  change (drop_while (Byte.eqb space) (rev (bytes ",), }") ++ ?l))
    with (rev (bytes ",), }") ++ l).
  rewrite strip_prefix_app.
  change (rev (bytes "(") ++ ?l) with ("("%byte :: l).
  assert (Hrev : Forall (fun d => is_digit d = true) (rev ds)).
  { apply Forall_forall. intros d Hd. rewrite Forall_forall in Hds.
    apply Hds. apply list_elem_of_In. apply in_rev. apply list_elem_of_In. exact Hd. }
  destruct (take_drop_while_digits (rev ds) "("%byte (rev front) Hrev eq_refl) as [Ht Hd].
  rewrite Ht, Hd.
  destruct (rev ds) as [|d ds'] eqn:E.
  - apply (f_equal (@rev byte)) in E. rewrite rev_involutive in E. contradiction.
  - change (Byte.eqb "(" "(") with true. cbv iota.
    rewrite <- E, rev_involutive. reflexivity.
Qed.

(** ** The shape of a rendered header *)

Lemma back_assign (l : list byte) (r : nat) (x y : byte) :
  <[(length (l ++ replicate (S r) x) - 1)%nat := y]> (l ++ replicate (S r) x)
  = l ++ replicate r x ++ [y].
Proof.
  rewrite replicate_S_end, !length_app, length_replicate.
  replace (length l + (r + length [x]) - 1)%nat with (length l + r)%nat by (simpl; lia).
  rewrite insert_app_r. f_equal.
  rewrite <- (length_replicate r x) at 1.
  rewrite <- (Nat.add_0_r (length (replicate r x))), insert_app_r. reflexivity.
Qed.

(** The length of the header made from a dictionary of [n] bytes:
    the least multiple of 16 above [10 + n]. *)
Lemma padded_length (n : Z) :
  0 <= n -> n + (16 - (10 + n) mod 16) = 16 * ((10 + n) / 16 + 1) - 10.
Proof. intros Hn. pose proof (Z.div_mod (10 + n) 16). lia. Qed.

Lemma finalize_header_eq (native : endian) (dict : list byte) :
  let n := Z.of_nat (length dict) in
  let size := 16 * ((10 + n) / 16 + 1) - 10 in
  finalize_header native dict =
  if 65535 <? size then inl HeaderTooLarge
  else inr (preamble ++ [byte_of_Z (size mod 65536); byte_of_Z (size mod 65536 / 256)]
            ++ dict ++ replicate (Z.to_nat (15 - (10 + n) mod 16)) space ++ [newline]).
Proof.
  intros n size. unfold finalize_header. fold n.
  pose proof (Z.mod_pos_bound (10 + n) 16 eq_refl) as Hm.
  replace (Z.to_nat (16 - (10 + n) mod 16))
    with (S (Z.to_nat (15 - (10 + n) mod 16))) by lia.
  rewrite back_assign.
  assert (Hlen : Z.of_nat (length (dict ++ replicate (Z.to_nat (15 - (10 + n) mod 16)) space
                                   ++ [newline])) = size).
  { rewrite !length_app, length_replicate. simpl length.
    unfold size. rewrite <- padded_length by lia. lia. }
  rewrite Hlen. destruct (65535 <? size); [reflexivity|].
  rewrite append_uint16_little_endian. unfold append_view, preamble.
  rewrite <- !app_assoc. reflexivity.
Qed.

Lemma length_preamble : length preamble = 8%nat.
Proof. reflexivity. Qed.

Lemma finalize_header_length (native : endian) (dict h : list byte) :
  finalize_header native dict = inr h ->
  Z.of_nat (length h) = 16 * ((10 + Z.of_nat (length dict)) / 16 + 1)
  /\ Z.of_nat (length h) <= 65545.
Proof.
  rewrite finalize_header_eq. cbv zeta.
  pose proof (Z.mod_pos_bound (10 + Z.of_nat (length dict)) 16 eq_refl) as Hm.
  pose proof (padded_length (Z.of_nat (length dict)) ltac:(lia)) as Hp.
  destruct (65535 <? _) eqn:Hs; [discriminate|].
  apply Z.ltb_ge in Hs. intros [= <-].
  cbn [length]. rewrite !length_app, length_replicate. cbn [length]. lia.
Qed.

Lemma append_shape_one (dict : list byte) (k : Z) :
  append_shape dict [k]
  = dict ++ bytes ", 'shape': " ++ bytes "(" ++ to_string k ++ bytes ",), }".
Proof.
  unfold append_shape, append_view. simpl. rewrite <- !app_assoc. reflexivity.
Qed.

(** The count is the only part of a rendered header that depends on
    [values_written]. *)
Lemma render_header_shape (native : endian) (labels : list (list byte))
    (dtypes : list byte) (sizes : list Z) :
  (forall k, render_header native k labels dtypes sizes = inl SizesNotEqual)
  \/ exists head, forall k,
       render_header native k labels dtypes sizes
       = finalize_header native (head ++ bytes "(" ++ to_string k ++ bytes ",), }").
Proof.
  unfold render_header. destruct (length labels =? 0)%nat.
  - right. eexists. intros k.
    unfold create_npy_header, scalar_dict. rewrite append_shape_one.
    rewrite app_assoc. reflexivity.
  - unfold create_npy_header_structured.
    destruct (negb _ || negb _ || negb _); [left; reflexivity|].
    right. eexists. intros k.
    unfold structured_dict. rewrite append_shape_one.
    rewrite app_assoc. reflexivity.
Qed.

(** ** Patching *)

Lemma patch_header_eq (hep : Z) (front : list byte) (last : byte) :
  10 <= hep -> Z.of_nat (length front) + 1 <= hep <= vector_max_size ->
  patch_header hep (front ++ [last])
  = inr (<[8%nat := byte_of_Z ((hep - 10) mod 256)]>
           (<[7%nat := byte_of_Z ((hep - 10) / 256)]>
              (front ++ replicate (Z.to_nat (hep - Z.of_nat (length front) - 1)) space
               ++ [last]))).
Proof.
  intros H10 [Hlo Hhi]. unfold vector_max_size in Hhi. unfold patch_header.
  rewrite length_app. cbn [length].
  replace (length front + 1 - 1)%nat with (length front) by lia.
  rewrite take_app_length, drop_app_length.
  assert (Hw : wrap64 (hep - Z.of_nat (length front + 1))
               = hep - Z.of_nat (length front) - 1).
  { unfold wrap64. rewrite Z.mod_small; lia. }
  rewrite Hw, Z.max_r by lia.
  unfold vector_max_size.
  destruct (2 ^ 63 - 1 <? _) eqn:Hmax; [apply Z.ltb_lt in Hmax; lia|].
  assert (Hsize : Z.of_nat (length (front
                    ++ replicate (Z.to_nat (hep - Z.of_nat (length front) - 1)) space
                    ++ [last])) = hep).
  { rewrite !length_app, length_replicate. cbn [length]. lia. }
  rewrite Hsize.
  assert (Hw' : wrap64 (hep - 10) = hep - 10).
  { unfold wrap64. rewrite Z.mod_small; lia. }
  rewrite Hw', Z.eqb_refl. reflexivity.
Qed.

(** Where [wrap_up] stores the length: the high byte at index 7, the
    low byte at index 8.  Index 9 keeps the byte [finalize_header] put
    there, and the bytes before index 7 are untouched. *)
Lemma patch_header_length_bytes (hep : Z) (h h' : list byte) :
  (16 <= length h)%nat ->
  patch_header hep h = inr h' ->
  h' !! 7%nat = Some (byte_of_Z ((hep - 10) / 256))
  /\ h' !! 8%nat = Some (byte_of_Z ((hep - 10) mod 256))
  /\ h' !! 9%nat = h !! 9%nat
  /\ take 7 h' = take 7 h.
Proof.
  intros Hh. unfold patch_header.
  set (count := Z.max 0 (wrap64 (hep - Z.of_nat (length h)))).
  destruct (vector_max_size <? _) eqn:Hmax; [discriminate|].
  apply Z.ltb_ge in Hmax. unfold vector_max_size in Hmax.
  set (body := take (length h - 1) h ++ replicate (Z.to_nat count) space
               ++ drop (length h - 1) h).
  assert (Hbody : Z.of_nat (length body) = Z.of_nat (length h) + count).
  { unfold body. rewrite !length_app, length_take, length_replicate, length_drop.
    unfold count. lia. }
  destruct (Z.of_nat (length body) =? hep) eqn:Hsize; [|discriminate].
  apply Z.eqb_eq in Hsize. intros [= <-].
  assert (Hw : wrap64 (Z.of_nat (length body) - 10) = hep - 10).
  { unfold wrap64. rewrite Z.mod_small; unfold count in *; lia. }
  rewrite Hw.
  assert (Hlen : (16 <= length body)%nat) by (unfold count in *; lia).
  split; [|split; [|split]].
  - rewrite list_lookup_insert_ne by lia. apply list_lookup_insert_eq. lia.
  - apply list_lookup_insert_eq. rewrite length_insert. lia.
  - rewrite !list_lookup_insert_ne by lia. unfold body.
    rewrite lookup_app_l by (rewrite length_take; lia).
    apply lookup_take_lt. lia.
  - rewrite !take_insert_ge by lia. unfold body.
    rewrite take_app_le by (rewrite length_take; lia).
    rewrite take_take. f_equal. lia.
Qed.

(** The header [close] puts on disk, for every count a stream can
    reach: it is rendered, it is no longer than the placeholder, and
    padding restores the placeholder's length.  Its first ten bytes
    apart, it is the dictionary of that count, spaces and a newline. *)
Lemma finalized_header (native : endian) (labels : list (list byte))
    (dtypes : list byte) (sizes : list Z) (h0 : list byte) (k : Z) :
  render_header native UINT64_MAX labels dtypes sizes = inr h0 ->
  0 <= k <= UINT64_MAX ->
  exists h h' pre head p,
    render_header native k labels dtypes sizes = inr h
    /\ (length h <= length h0)%nat
    /\ patch_header (Z.of_nat (length h0)) h = inr h'
    /\ length h' = length h0
    /\ length pre = 10%nat
    /\ h' = pre ++ head ++ bytes "(" ++ to_string k ++ bytes ",), }"
            ++ replicate p space ++ [newline].
Proof.
  intros H0 Hk.
  destruct (render_header_shape native labels dtypes sizes) as [Hbad|[head Hr]].
  { rewrite Hbad in H0. discriminate. }
  rewrite Hr in H0. rewrite Hr.
  set (dk := head ++ bytes "(" ++ to_string k ++ bytes ",), }").
  set (dmax := head ++ bytes "(" ++ to_string UINT64_MAX ++ bytes ",), }") in H0.
  assert (Hd : (length dk <= length dmax)%nat).
  { unfold dk, dmax. rewrite !length_app, to_string_UINT64_MAX.
    pose proof (to_string_length k). lia. }
  destruct (finalize_header_length _ _ _ H0) as [HL0 HL0'].
  assert (Hmono : (10 + Z.of_nat (length dk)) / 16 <= (10 + Z.of_nat (length dmax)) / 16)
    by (apply Z.div_le_mono; lia).
  pose proof (Z.mod_pos_bound (10 + Z.of_nat (length dk)) 16 eq_refl) as Hm.
  rewrite finalize_header_eq. cbv zeta.
  destruct (65535 <? _) eqn:Hs; [apply Z.ltb_lt in Hs; lia|]. clear Hs.
  set (b89 := [byte_of_Z _; byte_of_Z _]).
  set (p := Z.to_nat (15 - (10 + Z.of_nat (length dk)) mod 16)).
  set (front := (preamble ++ b89) ++ dk ++ replicate p space).
  assert (Hfront : preamble ++ b89 ++ dk ++ replicate p space ++ [newline]
                   = front ++ [newline]).
  { unfold front. rewrite <- !app_assoc. reflexivity. }
  assert (Hlf : Z.of_nat (length front) + 1
                = 16 * ((10 + Z.of_nat (length dk)) / 16 + 1)).
  { unfold front, b89, p. rewrite !length_app, length_replicate, length_preamble.
    cbn [length]. pose proof (padded_length (Z.of_nat (length dk)) ltac:(lia)). lia. }
  rewrite Hfront.
  eexists _, _, (<[8%nat := _]> (<[7%nat := _]> (preamble ++ b89))), head, _.
  split; [reflexivity|]. split.
  { rewrite length_app. cbn [length]. lia. }
  split.
  { apply patch_header_eq; unfold vector_max_size; lia. }
  split.
  { rewrite !length_insert, !length_app, length_replicate. cbn [length]. lia. }
  split.
  { rewrite !length_insert. reflexivity. }
  unfold front. rewrite <- (app_assoc (preamble ++ b89)).
  rewrite (insert_app_l (preamble ++ b89)) by (unfold b89; simpl; lia).
  rewrite (insert_app_l (<[7%nat:=_]> (preamble ++ b89)))
    by (rewrite length_insert; unfold b89; simpl; lia).
  f_equal. unfold dk. rewrite <- !app_assoc. do 4 f_equal.
  rewrite app_assoc, <- replicate_add. reflexivity.
Qed.

(** ** The file behind a stream *)

Lemma file_write_at_end (f : ofstream) (data : list byte) :
  pos f = length (content f) ->
  content (file_write f data) = content f ++ data
  /\ pos (file_write f data) = length (content (file_write f data)).
Proof.
  intros Hp. unfold file_write. cbn [content pos]. rewrite Hp.
  rewrite take_ge, drop_ge by lia.
  rewrite app_nil_r, length_app. auto.
Qed.

Lemma length_blank_header (n : nat) : (8 <= n)%nat -> length (blank_header n) = n.
Proof.
  intros Hn. unfold blank_header.
  rewrite length_app, length_replicate, length_preamble. lia.
Qed.

Lemma take_blank_header (n : nat) (c data : list byte) :
  (8 <= n)%nat -> take n c = blank_header n -> take n (c ++ data) = blank_header n.
Proof.
  intros Hn Hc. rewrite take_app_le; [exact Hc|].
  apply (f_equal length) in Hc.
  rewrite length_blank_header, length_take in Hc by exact Hn. lia.
Qed.

Section StreamInvariant.

Variable native : endian.
Variable T : scalar_type.
Variable TArgs : list scalar_type.

Abbreviation capacity := (buffer_capacity T TArgs).
Abbreviation stride := (sum_sizes (tuple_type T TArgs)).

Lemma sizeof_pos (t : scalar_type) : (1 <= sizeof t)%nat.
Proof. destruct t as [[]|[]|[]|[]]; simpl; lia. Qed.

Lemma stride_pos : (1 <= stride)%nat.
Proof. unfold tuple_type. simpl. pose proof (sizeof_pos T). lia. Qed.

Lemma capacity_bounds : 1 <= capacity <= 256.
Proof.
  unfold buffer_capacity. pose proof stride_pos.
  assert (256 / Z.of_nat stride <= 256).
  { apply Z.div_le_upper_bound; lia. }
  lia.
Qed.

Lemma buffered_bytes_bound (i : Z) :
  0 <= i < capacity -> 0 <= i * Z.of_nat stride <= 256.
Proof.
  intros Hi. pose proof stride_pos. unfold buffer_capacity in Hi.
  split; [lia|].
  destruct (Z.max_spec 1 (256 / Z.of_nat stride)) as [[_ Hm]|[_ Hm]];
    rewrite Hm in Hi.
  - pose proof (Z.mul_div_le 256 (Z.of_nat stride) ltac:(lia)). nia.
  - assert (i = 0) by lia. subst i. lia.
Qed.

Lemma flush_buffer_inv (n : nat) (lbls : list (list byte)) (s : NpyStream) :
  stream_inv T TArgs n lbls s -> stream_inv T TArgs n lbls (flush_buffer T TArgs s).
Proof.
  intros [Hn Hhep Hl Hbs Hbuf Hpos Hhead].
  pose proof capacity_bounds.
  destruct (file_write_at_end (file s)
              (take (Z.to_nat (wrap64 (buffer_size s * Z.of_nat stride)))
                    (concat (buffer s))) Hpos) as [Hc Hp].
  split; unfold flush_buffer; cbn [file header_end_pos labels buffer_size buffer];
    try assumption; try lia.
  rewrite Hc. apply take_blank_header; assumption.
Qed.

Lemma put_inv (n : nat) (lbls : list (list byte)) (s : NpyStream) (val : list scalar) :
  stream_inv T TArgs n lbls s -> stream_inv T TArgs n lbls (put native T TArgs s val).
Proof.
  intros Hs. pose proof capacity_bounds as Hcap.
  pose proof (inv_buffer_size _ _ _ _ _ Hs) as Hbs.
  assert (Hw : wrap64 (buffer_size s + 1) = buffer_size s + 1).
  { unfold wrap64. rewrite Z.mod_small; lia. }
  unfold put. cbn [file header_end_pos labels buffer_size buffer values_written].
  rewrite Hw.
  set (s1 := {| file := file s; header_end_pos := header_end_pos s;
                values_written := values_written s;
                buffer_size := buffer_size s + 1; labels := labels s;
                buffer := alter (fill native val) (Z.to_nat (buffer_size s)) (buffer s) |}).
  destruct (buffer_size s + 1 =? capacity) eqn:Hfull.
  - assert (H1 : stream_inv T TArgs n lbls (flush_buffer T TArgs s1)).
    { destruct Hs as [Hn Hhep Hl _ Hbuf Hpos Hhead].
      pose proof (file_write_at_end (file s1)
        (take (Z.to_nat (wrap64 (buffer_size s1 * Z.of_nat stride)))
              (concat (buffer s1))) Hpos) as [Hc Hp].
      split; unfold flush_buffer; cbn [file header_end_pos labels buffer_size buffer];
        try assumption; try lia.
      + unfold s1. cbn [buffer]. rewrite length_alter. exact Hbuf.
      + rewrite Hc. apply take_blank_header; assumption. }
    destruct H1; split; assumption.
  - apply Z.eqb_neq in Hfull.
    destruct Hs as [Hn Hhep Hl _ Hbuf Hpos Hhead].
    split; unfold s1; cbn [file header_end_pos labels buffer_size buffer];
      try assumption; try lia.
    rewrite length_alter. exact Hbuf.
Qed.

Lemma write_inv (n : nat) (lbls : list (list byte)) (s : NpyStream) (data : list scalar) :
  stream_inv T TArgs n lbls s -> stream_inv T TArgs n lbls (write native T TArgs s data).
Proof.
  intros Hs. unfold write.
  set (s1 := if negb (buffer_size s =? 0) then flush_buffer T TArgs s else s).
  assert (H1 : stream_inv T TArgs n lbls s1).
  { unfold s1. destruct (negb _); [apply flush_buffer_inv|]; exact Hs. }
  destruct H1 as [Hn Hhep Hl Hbs Hbuf Hpos Hhead].
  destruct (file_write_at_end (file s1)
    (take (Z.to_nat (wrap64 (Z.of_nat (sizeof T) * Z.of_nat (length data))))
          (concat (object_repr native <$> data))) Hpos) as [Hc Hp].
  split; cbn [file header_end_pos labels buffer_size buffer]; try assumption.
  rewrite Hc. apply take_blank_header; assumption.
Qed.

Lemma step_inv (n : nat) (lbls : list (list byte)) (s : NpyStream) (o : operation) :
  stream_inv T TArgs n lbls s -> stream_inv T TArgs n lbls (step native T TArgs s o).
Proof.
  destruct o; simpl; [apply put_inv|apply write_inv|apply flush_buffer_inv].
Qed.

Lemma run_inv (n : nat) (lbls : list (list byte)) (ops : list operation) :
  forall s, stream_inv T TArgs n lbls s -> stream_inv T TArgs n lbls (run native T TArgs s ops).
Proof.
  induction ops as [|o ops IH]; intros s Hs; simpl; [exact Hs|].
  apply IH, step_inv, Hs.
Qed.

End StreamInvariant.

(** ** Records in the buffer *)

Lemma take_concat_uniform (m : nat) (l : list (list byte)) :
  Forall (fun slot => length slot = m) l ->
  forall k, take (k * m) (concat l) = concat (take k l).
Proof.
  induction 1 as [|slot l Hs _ IH]; intros k.
  - rewrite take_nil. simpl. apply take_nil.
  - destruct k as [|k]; [reflexivity|].
    simpl. rewrite take_app_add' by (symmetry; exact Hs).
    rewrite IH. reflexivity.
Qed.

Lemma drop_cons_inv {A : Type} (d : A) (l : list A) :
  forall (k : nat) (x : A) (r : list A),
    drop k l = x :: r -> nth k l d = x /\ drop (k + 1) l = r.
Proof.
  induction l as [|a l IH]; intros k x r Hk.
  - rewrite drop_nil in Hk. discriminate.
  - destruct k as [|k]; simpl in *.
    + injection Hk as -> ->. rewrite drop_0. auto.
    + apply IH. exact Hk.
Qed.

Lemma sum_sizes_cons (t : scalar_type) (ts : list scalar_type) :
  sum_sizes (t :: ts) = (sizeof t + sum_sizes ts)%nat.
Proof. reflexivity. Qed.

Lemma length_record_bytes (native : endian) (val : list scalar) :
  length (record_bytes native val) = sum_sizes (type_of <$> val).
Proof.
  unfold record_bytes. induction val as [|v val IH]; [reflexivity|].
  cbn [fmap list_fmap concat]. rewrite length_app, length_object_repr, IH. reflexivity.
Qed.

(** [fill] walks the tuple and the offsets in step: with the bytes
    before offset [off] in place, it lays the remaining elements down
    one after the other. *)
Lemma fill_from_spec (native : endian) (offs : list nat) (elems : list scalar) :
  forall (k off : nat) (before rest : list byte),
    drop k offs = offsets_from off (type_of <$> elems) ->
    length before = off ->
    (sum_sizes (type_of <$> elems) <= length rest)%nat ->
    fill_from native offs k elems (before ++ rest)
    = before ++ record_bytes native elems
      ++ drop (sum_sizes (type_of <$> elems)) rest.
Proof.
  induction elems as [|e es IH]; intros k off before rest Hoffs Hlen Hroom.
  - reflexivity.
  - cbn [fmap list_fmap offsets_from] in Hoffs.
    rewrite fmap_cons, sum_sizes_cons in Hroom.
    destruct (drop_cons_inv 0%nat offs k _ _ Hoffs) as [Hnth Hdrop].
    cbn [fill_from]. rewrite Hnth. unfold copy_at.
    rewrite take_app_length' by (symmetry; exact Hlen).
    rewrite length_object_repr.
    rewrite drop_app_add' by (symmetry; exact Hlen).
    rewrite (app_assoc before).
    rewrite (IH (k + 1)%nat (off + sizeof (type_of e))%nat).
    + rewrite drop_drop, <- app_assoc. unfold record_bytes.
      cbn [fmap list_fmap concat]. rewrite sum_sizes_cons, <- app_assoc.
      reflexivity.
    + exact Hdrop.
    + rewrite length_app, length_object_repr. lia.
    + rewrite length_drop. lia.
Qed.

Lemma fill_record (native : endian) (val : list scalar) (slot : list byte) :
  length slot = sum_sizes (type_of <$> val) ->
  fill native val slot = record_bytes native val.
Proof.
  intros Hslot. unfold fill.
  rewrite (fill_from_spec native _ val 0 0 [] slot); [| reflexivity | reflexivity | lia].
  rewrite drop_ge by lia. rewrite app_nil_r. reflexivity.
Qed.

Lemma concat_singletons (native : endian) (data : list scalar) :
  concat (record_bytes native <$> ((fun v => [v]) <$> data))
  = concat (object_repr native <$> data).
Proof.
  induction data as [|v data IH]; [reflexivity|].
  cbn [fmap list_fmap concat]. rewrite IH.
  unfold record_bytes. cbn [fmap list_fmap concat]. rewrite app_nil_r. reflexivity.
Qed.

Lemma length_concat_repr (native : endian) (T : scalar_type) (data : list scalar) :
  Forall (fun v => type_of v = T) data ->
  length (concat (object_repr native <$> data)) = (sizeof T * length data)%nat.
Proof.
  induction 1 as [|v data Hv _ IH]; [simpl; lia|].
  cbn [fmap list_fmap concat length]. rewrite length_app, length_object_repr, Hv, IH. lia.
Qed.

Section DataInvariant.

Variable native : endian.
Variable T : scalar_type.
Variable TArgs : list scalar_type.

Abbreviation capacity := (buffer_capacity T TArgs).
Abbreviation stride := (sum_sizes (tuple_type T TArgs)).

(** The buffer is an object: its size in bytes is a [size_t]. *)
Hypothesis stride_fits : Z.of_nat stride <= 2 ^ 32.

Lemma flush_buffer_content (s : NpyStream) :
  pos (file s) = length (content (file s)) ->
  0 <= buffer_size s <= capacity ->
  Forall (fun slot => length slot = stride) (buffer s) ->
  content (file (flush_buffer T TArgs s))
  = content (file s) ++ concat (take (Z.to_nat (buffer_size s)) (buffer s)).
Proof.
  intros Hpos Hbs Hslots. pose proof (capacity_bounds T TArgs) as Hcap.
  unfold flush_buffer. cbn [file].
  destruct (file_write_at_end (file s)
    (take (Z.to_nat (wrap64 (buffer_size s * Z.of_nat stride))) (concat (buffer s))) Hpos)
    as [-> _].
  f_equal. unfold wrap64. rewrite Z.mod_small by nia.
  rewrite Z2Nat.inj_mul, Nat2Z.id by lia.
  apply take_concat_uniform, Hslots.
Qed.

Lemma flush_buffer_data (n : nat) (lbls : list (list byte)) (recs : list (list scalar))
    (s : NpyStream) :
  stream_inv T TArgs n lbls s -> data_inv native T TArgs n recs s ->
  data_inv native T TArgs n recs (flush_buffer T TArgs s)
  /\ content (file (flush_buffer T TArgs s))
     = blank_header n ++ concat (record_bytes native <$> recs).
Proof.
  intros [Hn Hhep Hl Hbs Hbuf Hpos Hhead] [Hslots Hvw Hdata].
  assert (Hc := flush_buffer_content s Hpos ltac:(lia) Hslots).
  rewrite Hdata in Hc. split; [|exact Hc].
  split; [exact Hslots|exact Hvw|].
  rewrite Hc. cbn [flush_buffer buffer_size].
  change (Z.to_nat 0) with 0%nat. rewrite take_0. apply app_nil_r.
Qed.

Lemma wrap64_succ (a b : Z) : wrap64 (wrap64 a + b) = wrap64 (a + b).
Proof. unfold wrap64. apply Z.add_mod_idemp_l. lia. Qed.

Lemma put_data (n : nat) (lbls : list (list byte)) (recs : list (list scalar))
    (s : NpyStream) (val : list scalar) :
  stream_inv T TArgs n lbls s -> data_inv native T TArgs n recs s ->
  type_of <$> val = tuple_type T TArgs ->
  data_inv native T TArgs n (recs ++ [val]) (put native T TArgs s val).
Proof.
  intros [Hn Hhep Hl Hbs Hbuf Hpos Hhead] [Hslots Hvw Hdata] Hty.
  pose proof (capacity_bounds T TArgs) as Hcap.
  assert (Hw : wrap64 (buffer_size s + 1) = buffer_size s + 1).
  { unfold wrap64. rewrite Z.mod_small; lia. }
  assert (Hi : (Z.to_nat (buffer_size s) < length (buffer s))%nat) by lia.
  destruct (lookup_lt_is_Some_2 _ _ Hi) as [slot Hslot].
  assert (Hslot_len : length slot = sum_sizes (type_of <$> val)).
  { rewrite Hty. exact (Forall_lookup_1 _ _ _ _ Hslots Hslot). }
  set (buffer1 := alter (fill native val) (Z.to_nat (buffer_size s)) (buffer s)).
  assert (Hslots1 : Forall (fun slot => length slot = stride) buffer1).
  { apply Forall_alter; [exact Hslots|]. intros x Hx _.
    rewrite fill_record, length_record_bytes, Hty; [reflexivity|].
    rewrite Hty. exact (Forall_lookup_1 _ _ _ _ Hslots Hx). }
  assert (Htake : concat (take (Z.to_nat (buffer_size s + 1)) buffer1)
                  = concat (take (Z.to_nat (buffer_size s)) (buffer s))
                    ++ record_bytes native val).
  { replace (Z.to_nat (buffer_size s + 1)) with (S (Z.to_nat (buffer_size s))) by lia.
    rewrite (take_S_r buffer1 _ (fill native val slot)).
    - unfold buffer1. rewrite take_alter_ge by lia.
      rewrite concat_app, fill_record by exact Hslot_len.
      simpl. rewrite app_nil_r. reflexivity.
    - unfold buffer1. rewrite list_lookup_alter_eq, Hslot. reflexivity. }
  assert (Hrecs : blank_header n ++ concat (record_bytes native <$> (recs ++ [val]))
                  = content (file s) ++ concat (take (Z.to_nat (buffer_size s + 1)) buffer1)).
  { rewrite Htake, app_assoc, Hdata, fmap_app, concat_app, <- app_assoc.
    cbn [fmap list_fmap concat]. rewrite app_nil_r. reflexivity. }
  unfold put. cbn [file header_end_pos labels buffer_size buffer values_written].
  rewrite Hw. fold buffer1.
  set (s1 := {| file := file s; header_end_pos := header_end_pos s;
                values_written := values_written s;
                buffer_size := buffer_size s + 1; labels := labels s;
                buffer := buffer1 |}).
  assert (Hvw' : wrap64 (values_written s + 1) = wrap64 (Z.of_nat (length (recs ++ [val])))).
  { rewrite Hvw, wrap64_succ, length_app. simpl. f_equal. lia. }
  destruct (buffer_size s + 1 =? capacity) eqn:Hfull.
  - assert (Hc := flush_buffer_content s1 Hpos ltac:(simpl; lia) Hslots1).
    split; cbn [buffer values_written file buffer_size flush_buffer].
    + exact Hslots1.
    + exact Hvw'.
    + change (file_write _ _) with (file (flush_buffer T TArgs s1)).
      rewrite Hc, Hrecs. cbn [s1 file buffer_size buffer].
      change (Z.to_nat 0) with 0%nat. rewrite take_0. apply app_nil_r.
  - split; cbn [buffer values_written file buffer_size s1].
    + exact Hslots1.
    + exact Hvw'.
    + symmetry. exact Hrecs.
Qed.

Lemma write_data (n : nat) (lbls : list (list byte)) (recs : list (list scalar))
    (s : NpyStream) (data : list scalar) :
  stream_inv T TArgs n lbls s -> data_inv native T TArgs n recs s ->
  operation_ok T TArgs (WriteSpan data) ->
  data_inv native T TArgs n (recs ++ ((fun v => [v]) <$> data))
           (write native T TArgs s data).
Proof.
  intros Hs Hd (_ & Hty & Hfits). unfold UINT64_MAX in Hfits. unfold write.
  set (s1 := if negb (buffer_size s =? 0) then flush_buffer T TArgs s else s).
  assert (H1 : stream_inv T TArgs n lbls s1 /\ data_inv native T TArgs n recs s1
               /\ buffer_size s1 = 0).
  { unfold s1. destruct (buffer_size s =? 0) eqn:Hz; simpl.
    - apply Z.eqb_eq in Hz. auto.
    - split; [apply flush_buffer_inv; exact Hs|].
      split; [apply (flush_buffer_data n lbls); assumption|reflexivity]. }
  destruct H1 as ([Hn Hhep Hl Hbs Hbuf Hpos Hhead] & [Hslots Hvw Hdata] & Hzero).
  rewrite Hzero in Hdata. change (Z.to_nat 0) with 0%nat in Hdata.
  rewrite take_0, app_nil_r in Hdata.
  split; cbn [buffer values_written file buffer_size].
  - exact Hslots.
  - rewrite Hvw, wrap64_succ, length_app, length_fmap. f_equal. lia.
  - destruct (file_write_at_end (file s1)
      (take (Z.to_nat (wrap64 (Z.of_nat (sizeof T) * Z.of_nat (length data))))
            (concat (object_repr native <$> data))) Hpos) as [-> _].
    rewrite Hzero. change (Z.to_nat 0) with 0%nat. rewrite take_0, app_nil_r.
    rewrite take_ge.
    + rewrite Hdata, fmap_app, concat_app, concat_singletons, app_assoc. reflexivity.
    + rewrite (length_concat_repr native T) by exact Hty.
      unfold wrap64. rewrite Z.mod_small by lia. lia.
Qed.

Lemma run_data (n : nat) (lbls : list (list byte)) (ops : list operation) :
  forall (s : NpyStream) (recs : list (list scalar)),
    stream_inv T TArgs n lbls s -> data_inv native T TArgs n recs s ->
    Forall (operation_ok T TArgs) ops ->
    data_inv native T TArgs n (recs ++ records ops) (run native T TArgs s ops).
Proof.
  induction ops as [|o ops IH]; intros s recs Hs Hd Hok.
  - unfold records. simpl. rewrite app_nil_r. exact Hd.
  - apply Forall_cons in Hok as [Ho Hok].
    unfold records. cbn [fmap list_fmap concat]. fold (records ops).
    rewrite app_assoc. simpl run. apply IH; [apply step_inv; exact Hs| |exact Hok].
    destruct o as [val|data|]; cbn [step records_of].
    + apply (put_data n lbls); assumption.
    + apply (write_data n lbls); assumption.
    + rewrite app_nil_r. apply (flush_buffer_data n lbls); assumption.
Qed.

End DataInvariant.

(** ** Construction *)

Lemma render_header_head (native : endian) (k : Z) (labels : list (list byte))
    (dtypes : list byte) (sizes : list Z) (h : list byte) :
  render_header native k labels dtypes sizes = inr h ->
  take 8 h = preamble /\ (16 <= length h)%nat.
Proof.
  intros Hr.
  destruct (render_header_shape native labels dtypes sizes) as [Hbad|[head Hs]].
  { rewrite Hbad in Hr. discriminate. }
  rewrite Hs in Hr.
  destruct (finalize_header_length _ _ _ Hr) as [Hlen _].
  rewrite finalize_header_eq in Hr. cbv zeta in Hr.
  destruct (65535 <? _); [discriminate|]. injection Hr as <-.
  split; [reflexivity|].
  assert (0 <= (10 + Z.of_nat (length (head ++ bytes "(" ++ to_string k ++ bytes ",), }"))) / 16)
    by (apply Z.div_pos; lia).
  lia.
Qed.

Lemma append_field_length (native : endian) (labels : list (list byte))
    (dtypes : list byte) (sizes : list Z) (dict : list byte) (i : nat) :
  (length dict + 10 <= length (append_field native labels dtypes sizes dict i))%nat.
Proof.
  unfold append_field, append_view.
  destruct (i + 1 =? length dtypes)%nat; rewrite !length_app; simpl; lia.
Qed.

Lemma fold_append_field_length (native : endian) (labels : list (list byte))
    (dtypes : list byte) (sizes : list Z) (l : list nat) :
  forall dict,
    (length dict + 10 * length l
     <= length (fold_left (append_field native labels dtypes sizes) l dict))%nat.
Proof.
  induction l as [|i l IH]; intros dict; simpl; [lia|].
  etransitivity; [|apply IH].
  pose proof (append_field_length native labels dtypes sizes dict i). lia.
Qed.

(** A structured header that fits its 16-bit length field describes
    fewer than 6554 fields. *)
Lemma render_header_fields (native : endian) (k : Z) (labels : list (list byte))
    (dtypes : list byte) (sizes : list Z) (h : list byte) :
  render_header native k labels dtypes sizes = inr h ->
  length labels <> 0%nat ->
  10 * Z.of_nat (length dtypes) <= 65535.
Proof.
  unfold render_header. intros Hr Hl.
  apply Nat.eqb_neq in Hl. rewrite Hl in Hr.
  unfold create_npy_header_structured in Hr.
  destruct (negb _ || negb _ || negb _); [discriminate|].
  destruct (finalize_header_length _ _ _ Hr) as [Hlen Hmax].
  unfold structured_dict in Hlen. rewrite append_shape_one in Hlen.
  set (d0 := append_view [] (bytes "{'descr': [")) in Hlen.
  pose proof (fold_append_field_length native labels dtypes sizes
                (seq 0 (length dtypes)) d0) as Hfold.
  rewrite length_seq in Hfold.
  set (fields := fold_left _ _ d0) in *.
  set (d1 := if (length dtypes =? 1)%nat then fields ++ [x2c] else fields) in Hlen.
  assert (Hd1 : (length fields <= length d1)%nat).
  { unfold d1. destruct (length dtypes =? 1)%nat; [rewrite length_app|]; lia. }
  unfold append_view in Hlen. rewrite !length_app in Hlen.
  match type of Hlen with
  | _ = 16 * ((10 + Z.of_nat ?x) / 16 + 1) =>
      assert (Hx : (length d1 <= x)%nat) by lia; set (total := x) in *
  end.
  pose proof (Z.mod_pos_bound (10 + Z.of_nat total) 16 eq_refl).
  pose proof (Z.div_mod (10 + Z.of_nat total) 16).
  lia.
Qed.

Lemma sum_sizes_bound (tys : list scalar_type) : (sum_sizes tys <= 16 * length tys)%nat.
Proof.
  induction tys as [|t tys IH]; [simpl; lia|].
  rewrite sum_sizes_cons. cbn [length].
  assert (sizeof t <= 16)%nat by (destruct t as [[]|[]|[]|[]]; simpl; lia).
  lia.
Qed.

Section Construction.

Variable native : endian.
Variable T : scalar_type.
Variable TArgs : list scalar_type.

(** What a successful [init] leaves: the placeholder header was
    rendered, its zero-filled copy is the whole file, and the stream is
    empty. *)
Lemma init_spec (lbls : list (list byte)) (disk disk' : option (list byte))
    (s : NpyStream) :
  init native T TArgs lbls disk = (disk', inr s) ->
  exists h0,
    render_header native UINT64_MAX lbls (dtypes T TArgs) (sizes T TArgs) = inr h0
    /\ disk' = Some (blank_header (length h0))
    /\ s = {| file := {| content := blank_header (length h0); pos := length h0 |};
              header_end_pos := Z.of_nat (length h0);
              values_written := 0;
              buffer_size := 0;
              labels := lbls;
              buffer := replicate (Z.to_nat (buffer_capacity T TArgs))
                          (replicate (sum_sizes (tuple_type T TArgs)) x00) |}
    /\ (length lbls = 0%nat /\ TArgs = [] \/ length lbls = length (tuple_type T TArgs)).
Proof.
  unfold init.
  set (rendered := if (length lbls =? 0)%nat then _ else _).
  intros Hinit.
  assert (Hr : forall h, rendered = inr h ->
             render_header native UINT64_MAX lbls (dtypes T TArgs) (sizes T TArgs) = inr h
             /\ (length lbls = 0%nat /\ TArgs = []
                 \/ length lbls = length (tuple_type T TArgs))).
  { intros h. unfold rendered, render_header.
    destruct (length lbls =? 0)%nat eqn:Hl.
    - destruct (length (tuple_type T TArgs) =? 1)%nat eqn:H1; [|discriminate].
      intros Heq. split; [exact Heq|]. left.
      apply Nat.eqb_eq in Hl, H1. split; [exact Hl|].
      destruct TArgs; [reflexivity|discriminate].
    - destruct (length lbls =? length (tuple_type T TArgs))%nat eqn:H1; [|discriminate].
      simpl. intros Heq. split; [exact Heq|]. right.
      apply Nat.eqb_eq in H1. exact H1. }
  destruct rendered as [e|header]; [discriminate|].
  destruct (Hr header eq_refl) as [Hrender Hcase].
  destruct (render_header_head _ _ _ _ _ _ Hrender) as [Hpre Hlen].
  exists header. split; [exact Hrender|].
  assert (Hw : file_write file_open (take 8 header ++ replicate (length header - 8) x00)
               = {| content := blank_header (length header); pos := length header |}).
  { unfold file_write, file_open. cbn [content pos].
    rewrite Hpre, take_0, drop_nil, app_nil_r. cbn [app].
    f_equal. rewrite length_app, length_replicate, length_preamble. lia. }
  rewrite Hw in Hinit. cbn [content] in Hinit.
  injection Hinit as <- <-. auto.
Qed.

Lemma init_stride (lbls : list (list byte)) (disk disk' : option (list byte))
    (s : NpyStream) :
  init native T TArgs lbls disk = (disk', inr s) ->
  Z.of_nat (sum_sizes (tuple_type T TArgs)) <= 2 ^ 32.
Proof.
  intros Hinit. destruct (init_spec _ _ _ _ Hinit) as (h0 & Hr & _ & _ & Hcase).
  pose proof (sum_sizes_bound (tuple_type T TArgs)) as Hsum.
  destruct Hcase as [[_ ->]|Hl].
  - simpl in Hsum. simpl. lia.
  - assert (Hne : length lbls <> 0%nat) by (rewrite Hl; simpl; lia).
    pose proof (render_header_fields _ _ _ _ _ _ Hr Hne) as Hf.
    unfold dtypes, data_types in Hf. rewrite length_fmap in Hf.
    change (2 ^ 32) with 4294967296. lia.
Qed.

Lemma init_inv (lbls : list (list byte)) (disk disk' : option (list byte))
    (s : NpyStream) :
  init native T TArgs lbls disk = (disk', inr s) ->
  exists h0,
    render_header native UINT64_MAX lbls (dtypes T TArgs) (sizes T TArgs) = inr h0
    /\ stream_inv T TArgs (length h0) lbls s
    /\ data_inv native T TArgs (length h0) [] s.
Proof.
  intros Hinit. destruct (init_spec _ _ _ _ Hinit) as (h0 & Hr & _ & -> & _).
  destruct (render_header_head _ _ _ _ _ _ Hr) as [_ Hlen].
  pose proof (capacity_bounds T TArgs) as Hcap.
  exists h0. split; [exact Hr|]. split.
  - split; cbn [file header_end_pos labels buffer_size buffer content pos];
      try reflexivity; try lia.
    + apply length_replicate.
    + symmetry. apply length_blank_header. lia.
    + apply take_ge. rewrite length_blank_header; lia.
  - split; cbn [file values_written buffer_size buffer content].
    + apply Forall_replicate. apply length_replicate.
    + reflexivity.
    + reflexivity.
Qed.

End Construction.

(** ** Closing *)

Lemma finalized_header_count (native : endian) (labels : list (list byte))
    (dtypes : list byte) (sizes : list Z) (h0 : list byte) (k : Z) :
  render_header native UINT64_MAX labels dtypes sizes = inr h0 ->
  0 <= k <= UINT64_MAX ->
  exists h h',
    render_header native k labels dtypes sizes = inr h
    /\ patch_header (Z.of_nat (length h0)) h = inr h'
    /\ length h' = length h0
    /\ declared_count h' = Some k.
Proof.
  intros H0 Hk.
  destruct (finalized_header native labels dtypes sizes h0 k H0 Hk)
    as (h & h' & pre & head & p & Hr & _ & Hp & Hlen & _ & Hshape).
  exists h, h'. split; [exact Hr|]. split; [exact Hp|]. split; [exact Hlen|].
  destruct (to_string_spec k Hk) as (Hval & Hdigits & Hne).
  rewrite Hshape, app_assoc, declared_count_spec by assumption.
  rewrite Hval. reflexivity.
Qed.

Section Closing.

Variable native : endian.
Variable T : scalar_type.
Variable TArgs : list scalar_type.

Lemma close_spec (lbls : list (list byte)) (h0 : list byte)
    (recs : list (list scalar)) (s : NpyStream) :
  Z.of_nat (sum_sizes (tuple_type T TArgs)) <= 2 ^ 32 ->
  render_header native UINT64_MAX lbls (dtypes T TArgs) (sizes T TArgs) = inr h0 ->
  stream_inv T TArgs (length h0) lbls s ->
  data_inv native T TArgs (length h0) recs s ->
  exists h h',
    render_header native (wrap64 (Z.of_nat (length recs))) lbls
      (dtypes T TArgs) (sizes T TArgs) = inr h
    /\ patch_header (Z.of_nat (length h0)) h = inr h'
    /\ close native T TArgs s
       = inr {| content := h' ++ concat (record_bytes native <$> recs);
                pos := length h0 |}
    /\ length h' = length h0
    /\ declared_count h' = Some (wrap64 (Z.of_nat (length recs))).
Proof.
  intros Hfits Hr Hs Hd.
  destruct (flush_buffer_data native T TArgs Hfits _ _ _ _ Hs Hd) as [Hd' Hc].
  pose proof (flush_buffer_inv T TArgs _ _ _ Hs) as Hs'.
  destruct Hs' as [Hn Hhep Hl _ _ _ _]. destruct Hd' as [_ Hvw _].
  assert (Hk : 0 <= wrap64 (Z.of_nat (length recs)) <= UINT64_MAX).
  { unfold wrap64, UINT64_MAX.
    pose proof (Z.mod_pos_bound (Z.of_nat (length recs)) (2 ^ 64) eq_refl). lia. }
  destruct (finalized_header_count native lbls _ _ h0 _ Hr Hk)
    as (h & h' & Hrk & Hp & Hlen & Hcount).
  exists h, h'. split; [exact Hrk|]. split; [exact Hp|]. split; [|auto].
  unfold close, wrap_up. rewrite Hvw, Hhep, Hl, Hrk, Hp. f_equal.
  unfold file_write, seekp. cbn [content pos]. rewrite Hc, take_0. cbn [app].
  rewrite Hlen, Nat.add_0_l. f_equal.
  rewrite drop_app_length' by (symmetry; apply length_blank_header; exact Hn).
  reflexivity.
Qed.

Lemma records_typed (ops : list operation) :
  Forall (operation_ok T TArgs) ops ->
  Forall (fun val => type_of <$> val = tuple_type T TArgs) (records ops).
Proof.
  induction 1 as [|o ops Ho _ IH]; [constructor|].
  unfold records. cbn [fmap list_fmap concat]. apply Forall_app. split; [|exact IH].
  destruct o as [val|data|]; cbn [records_of].
  - constructor; [exact Ho|constructor].
  - destruct Ho as (-> & Hty & _). apply Forall_fmap.
    eapply Forall_impl; [exact Hty|]. intros v Hv. simpl. rewrite Hv. reflexivity.
  - constructor.
Qed.

Lemma length_records_bytes (recs : list (list scalar)) :
  Forall (fun val => type_of <$> val = tuple_type T TArgs) recs ->
  length (concat (record_bytes native <$> recs))
  = (length recs * sum_sizes (tuple_type T TArgs))%nat.
Proof.
  induction 1 as [|val recs Hv _ IH]; [reflexivity|].
  cbn [fmap list_fmap concat length].
  rewrite length_app, length_record_bytes, Hv, IH. lia.
Qed.

End Closing.

(** * The claims *)

(** C1 (round-trip count).  Whatever sequence of tuples, spans and
    flushes an open stream receives, as long as the [k] records they
    hold can be counted in 64 bits, the destructor succeeds and leaves a
    file whose first [header_end_pos] bytes are the header rendered for
    shape [k], padded by [wrap_up]: a header declaring exactly [k]
    elements.  Its data region holds the [k] records in order, and its
    size is [header_end_pos + k * record_stride]. *)
Theorem round_trip_count (native : endian) (T : scalar_type) (TArgs : list scalar_type)
    (lbls : list (list byte)) (disk disk' : option (list byte)) (s : NpyStream)
    (ops : list operation) :
  init native T TArgs lbls disk = (disk', inr s) ->
  Forall (operation_ok T TArgs) ops ->
  Z.of_nat (length (records ops)) <= UINT64_MAX ->
  exists f,
    close native T TArgs (run native T TArgs s ops) = inr f
    /\ (exists h,
          render_header native (Z.of_nat (length (records ops))) lbls
            (dtypes T TArgs) (sizes T TArgs) = inr h
          /\ patch_header (header_end_pos s) h
             = inr (take (Z.to_nat (header_end_pos s)) (content f)))
    /\ declared_count (take (Z.to_nat (header_end_pos s)) (content f))
       = Some (Z.of_nat (length (records ops)))
    /\ drop (Z.to_nat (header_end_pos s)) (content f)
       = concat (record_bytes native <$> records ops)
    /\ Z.of_nat (length (content f))
       = header_end_pos s
         + Z.of_nat (length (records ops)) * Z.of_nat (sum_sizes (tuple_type T TArgs)).
Proof.
  intros Hinit Hok Hk.
  pose proof (init_stride _ _ _ _ _ _ _ Hinit) as Hfits.
  destruct (init_inv _ _ _ _ _ _ _ Hinit) as (h0 & Hr & Hs & Hd).
  pose proof (inv_header_end_pos _ _ _ _ _ Hs) as Hhep.
  pose proof (run_inv native T TArgs _ _ ops _ Hs) as Hs'.
  pose proof (run_data native T TArgs Hfits _ _ ops _ _ Hs Hd Hok) as Hd'.
  rewrite app_nil_l in Hd'.
  destruct (close_spec native T TArgs _ _ _ _ Hfits Hr Hs' Hd')
    as (h & h' & Hrk & Hp & Hclose & Hlen & Hcount).
  eexists. split; [exact Hclose|]. cbn [content].
  assert (Hw : wrap64 (Z.of_nat (length (records ops))) = Z.of_nat (length (records ops))).
  { unfold wrap64. apply Z.mod_small. unfold UINT64_MAX in Hk. lia. }
  rewrite Hw in Hrk, Hcount. rewrite Hhep, Nat2Z.id.
  rewrite take_app_length' by (symmetry; exact Hlen).
  split; [|split; [|split]].
  - exists h. auto.
  - exact Hcount.
  - apply drop_app_length'. symmetry. exact Hlen.
  - rewrite length_app, Hlen, (length_records_bytes native T TArgs)
      by (apply records_typed; exact Hok).
    lia.
Qed.

Lemma round_trip_count_witness :
  init Little (TFloat Double) [] [] None = (Some (blank_header 96), inr double_stream)
  /\ Forall (operation_ok (TFloat Double) [])
       [Put [double_of_Z 1]; Put [double_of_Z 2]; Flush; WriteSpan [double_of_Z 3]]
  /\ exists f,
       close Little (TFloat Double) []
         (run Little (TFloat Double) [] double_stream
            [Put [double_of_Z 1]; Put [double_of_Z 2]; Flush; WriteSpan [double_of_Z 3]])
       = inr f
       /\ (exists h,
             render_header Little 3 [] (dtypes (TFloat Double) []) (sizes (TFloat Double) [])
             = inr h
             /\ patch_header (header_end_pos double_stream) h
                = inr (take (Z.to_nat (header_end_pos double_stream)) (content f)))
       /\ declared_count (take (Z.to_nat (header_end_pos double_stream)) (content f))
          = Some 3
       /\ drop (Z.to_nat (header_end_pos double_stream)) (content f)
          = concat (record_bytes Little <$>
                      [[double_of_Z 1]; [double_of_Z 2]; [double_of_Z 3]])
       /\ Z.of_nat (length (content f)) = 96 + 3 * 8.
Proof.
  assert (Hinit : init Little (TFloat Double) [] [] None
                  = (Some (blank_header 96), inr double_stream)) by reflexivity.
  assert (Hok : Forall (operation_ok (TFloat Double) [])
            [Put [double_of_Z 1]; Put [double_of_Z 2]; Flush; WriteSpan [double_of_Z 3]]).
  { repeat constructor. vm_compute. discriminate. }
  split; [exact Hinit|]. split; [exact Hok|].
  apply (round_trip_count Little (TFloat Double) [] [] None _ double_stream _ Hinit Hok).
  vm_compute. discriminate.
Defined.

(** C2 (header length invariance).  Once the placeholder header, for
    shape [UINT64_MAX], has been rendered, the header for every count
    [k] from 0 to [UINT64_MAX] is rendered too and is no longer than
    the placeholder; padding it in [wrap_up] succeeds and gives a header
    of the placeholder's length exactly. *)
Theorem header_length_invariance (native : endian) (labels : list (list byte))
    (dtypes : list byte) (sizes : list Z) (h0 : list byte) (k : Z) :
  render_header native UINT64_MAX labels dtypes sizes = inr h0 ->
  0 <= k <= UINT64_MAX ->
  exists h h',
    render_header native k labels dtypes sizes = inr h
    /\ (length h <= length h0)%nat
    /\ patch_header (Z.of_nat (length h0)) h = inr h'
    /\ length h' = length h0.
Proof.
  intros H0 Hk.
  destruct (finalized_header native labels dtypes sizes h0 k H0 Hk)
    as (h & h' & _ & _ & _ & Hr & Hle & Hp & Hlen & _).
  exists h, h'. auto.
Qed.

Lemma header_length_invariance_witness :
  exists h0,
    render_header Little UINT64_MAX [] ["f"%byte] [8] = inr h0
    /\ 0 <= 3 <= UINT64_MAX
    /\ exists h h',
         render_header Little 3 [] ["f"%byte] [8] = inr h
         /\ (length h <= length h0)%nat
         /\ patch_header (Z.of_nat (length h0)) h = inr h'
         /\ length h' = length h0.
Proof.
  eexists. split; [vm_compute; reflexivity|].
  split; [vm_compute; split; discriminate|].
  apply (header_length_invariance Little [] ["f"%byte] [8] _ 3).
  - vm_compute. reflexivity.
  - vm_compute. split; discriminate.
Defined.

(** C3 (the length field after patching).  A stream of twelve [double]
    columns with the default labels, closed with no record written: the
    reserved header has 272 bytes, so the length field should read 262,
    that is bytes 8 and 9 should be 6 and 1 and byte 7 should still be
    the minor version 0.  [wrap_up] stores the high byte of the length
    at index 7 and the low byte at index 8, and leaves at index 9 the
    high byte of the unpadded header's length: the file has 1, 6, 0. *)
Theorem wrap_up_misplaces_length_bytes :
  exists s f,
    snd (NpyStream_path Little (TFloat Double) eleven_doubles None) = inr s
    /\ header_end_pos s = 272
    /\ close Little (TFloat Double) eleven_doubles s = inr f
    /\ take 272 (content f) !! 7%nat = Some x01
    /\ take 272 (content f) !! 8%nat = Some x06
    /\ take 272 (content f) !! 9%nat = Some x00
    /\ (byte_of_Z ((272 - 10) mod 256), byte_of_Z ((272 - 10) / 256)) = (x06, x01).
Proof.
  eexists. eexists.
  split; [vm_compute; reflexivity|].
  split; [reflexivity|].
  split; [vm_compute; reflexivity|].
  repeat split; vm_compute; reflexivity.
Qed.

(** C4, as stated, fails: just after construction of an
    [NpyStream<double>] the first [header_end_pos] bytes of the file
    are not the header rendered for shape [UINT64_MAX]. *)
Lemma placeholder_header_not_on_disk :
  exists h0,
    init Little (TFloat Double) [] [] None = (Some (blank_header 96), inr double_stream)
    /\ render_header Little UINT64_MAX [] (dtypes (TFloat Double) []) (sizes (TFloat Double) [])
       = inr h0
    /\ header_end_pos double_stream = Z.of_nat (length h0)
    /\ take (Z.to_nat (header_end_pos double_stream)) (content (file double_stream)) <> h0.
Proof.
  eexists. split; [reflexivity|].
  split; [vm_compute; reflexivity|].
  split; [reflexivity|].
  vm_compute. discriminate.
Qed.

(** C4, amended.  From construction until the destructor runs, whatever
    is sent to the stream, the first [header_end_pos] bytes of the file
    are the eight bytes of magic string and version followed by zeros;
    [header_end_pos] is the length of the header rendered for shape
    [UINT64_MAX]. *)
Theorem blank_header_until_close (native : endian) (T : scalar_type)
    (TArgs : list scalar_type) (lbls : list (list byte))
    (disk disk' : option (list byte)) (s : NpyStream) (ops : list operation) :
  init native T TArgs lbls disk = (disk', inr s) ->
  (exists h0,
     render_header native UINT64_MAX lbls (dtypes T TArgs) (sizes T TArgs) = inr h0
     /\ header_end_pos s = Z.of_nat (length h0))
  /\ header_end_pos (run native T TArgs s ops) = header_end_pos s
  /\ take (Z.to_nat (header_end_pos s)) (content (file (run native T TArgs s ops)))
     = preamble ++ replicate (Z.to_nat (header_end_pos s) - 8) x00.
Proof.
  intros Hinit.
  destruct (init_inv _ _ _ _ _ _ _ Hinit) as (h0 & Hr & Hs & _).
  pose proof (inv_header_end_pos _ _ _ _ _ Hs) as Hhep.
  destruct (run_inv native T TArgs _ _ ops _ Hs) as [_ Hhep' _ _ _ _ Hhead].
  split; [exists h0; auto|].
  split; [congruence|].
  rewrite Hhep, Nat2Z.id. exact Hhead.
Qed.

Lemma blank_header_until_close_witness :
  init Little (TFloat Double) [] [] None = (Some (blank_header 96), inr double_stream)
  /\ (exists h0,
        render_header Little UINT64_MAX [] (dtypes (TFloat Double) []) (sizes (TFloat Double) [])
        = inr h0
        /\ header_end_pos double_stream = Z.of_nat (length h0))
  /\ header_end_pos (run Little (TFloat Double) [] double_stream [Put [double_of_Z 1]])
     = header_end_pos double_stream
  /\ take (Z.to_nat (header_end_pos double_stream))
          (content (file (run Little (TFloat Double) [] double_stream [Put [double_of_Z 1]])))
     = preamble ++ replicate (Z.to_nat (header_end_pos double_stream) - 8) x00.
Proof.
  split; [reflexivity|].
  apply (blank_header_until_close Little (TFloat Double) [] [] None
           (Some (blank_header 96)) double_stream [Put [double_of_Z 1]]).
  reflexivity.
Defined.

(** C5 (layout validation).  Constructing a stream of two or more
    fields with a label container of another length than the number of
    fields throws the labels-size error of [init], and the path holds
    what it held before: no file is opened, created or written. *)
Theorem labels_mismatch_rejected (native : endian) (T : scalar_type)
    (TArgs : list scalar_type) (labels_ : list (list byte)) (disk : option (list byte)) :
  TArgs <> [] ->
  length labels_ <> length (tuple_type T TArgs) ->
  NpyStream_path_labels native T TArgs labels_ disk = (disk, inl LayoutMismatch).
Proof.
  intros Hmulti Hlen. unfold NpyStream_path_labels, init.
  destruct (length labels_ =? 0)%nat.
  - destruct (length (tuple_type T TArgs) =? 1)%nat eqn:H1; [|reflexivity].
    apply Nat.eqb_eq in H1. destruct TArgs; [contradiction|discriminate].
  - apply Nat.eqb_neq in Hlen. rewrite Hlen. reflexivity.
Qed.

Lemma labels_mismatch_rejected_witness :
  [TFloat Single] <> []
  /\ length [bytes "a"; bytes "b"; bytes "c"] <> length (tuple_type (TInt W4) [TFloat Single])
  /\ NpyStream_path_labels Little (TInt W4) [TFloat Single]
       [bytes "a"; bytes "b"; bytes "c"] None
     = (None, inl LayoutMismatch).
Proof.
  split; [discriminate|]. split; [discriminate|].
  apply (labels_mismatch_rejected Little (TInt W4) [TFloat Single]
           [bytes "a"; bytes "b"; bytes "c"] None); discriminate.
Defined.

(** C6 (structured scenario).  On a little-endian host, a stream of
    [int32_t] and [float] with the labels a and b that receives the one
    tuple (7, 2.5f): [fill] serializes it to the eight bytes
    07 00 00 00 00 00 20 40, the two fields side by side in declared
    order, in the first slot of the buffer; after the destructor the
    dictionary reads descr [('a', '<i4'), ('b', '<f4')] with shape (1,),
    each type code behind the marker of little-endian order, and the
    data region is that record. *)
Theorem structured_scenario :
  float_2_5 = S754_finite false 10485760 (-22)
  /\ init Little (TInt W4) [TFloat Single] [bytes "a"; bytes "b"] None
     = (Some (blank_header 112), inr int_float_stream)
  /\ fill Little [VInt W4 7; VFloat Single float_2_5] (replicate 8 x00)
     = [x07; x00; x00; x00; x00; x00; x20; x40]
  /\ offsets [TInt W4; TFloat Single] = [0; 4]%nat
  /\ buffer (put Little (TInt W4) [TFloat Single] int_float_stream
               [VInt W4 7; VFloat Single float_2_5]) !! 0%nat
     = Some [x07; x00; x00; x00; x00; x00; x20; x40]
  /\ exists f,
       close Little (TInt W4) [TFloat Single]
         (put Little (TInt W4) [TFloat Single] int_float_stream
            [VInt W4 7; VFloat Single float_2_5]) = inr f
       /\ drop 10 (take 112 (content f))
          = bytes "{'descr': [('a', '<i4'), ('b', '<f4')], 'fortran_order': False, 'shape': (1,), }"
            ++ replicate 21 space ++ [newline]
       /\ drop 112 (content f) = [x07; x00; x00; x00; x00; x00; x20; x40].
Proof.
  split; [reflexivity|].
  split; [reflexivity|].
  split; [reflexivity|].
  split; [reflexivity|].
  split; [reflexivity|].
  eexists. split; [vm_compute; reflexivity|].
  split; reflexivity.
Qed.

(** Two more object representations on a little-endian host: the
    [uint32_t] value 1 and the [double] value 1.0. *)
Example object_repr_uint32_1 :
  object_repr Little (VUInt W4 1) = [x01; x00; x00; x00].
Proof. reflexivity. Qed.

Example object_repr_double_1 :
  object_repr Little (double_of_Z 1) = [x00; x00; x00; x00; x00; x00; xf0; x3f].
Proof. reflexivity. Qed.

Lemma file_write_nil (f : ofstream) : file_write f [] = f.
Proof.
  destruct f as [c p]. unfold file_write. cbn [content pos app length].
  rewrite Nat.add_0_r, take_drop. reflexivity.
Qed.

Lemma flush_buffer_empty (T : scalar_type) (TArgs : list scalar_type) (s : NpyStream) :
  buffer_size s = 0 -> flush_buffer T TArgs s = s.
Proof.
  intros Hz. unfold flush_buffer. rewrite Hz.
  replace (wrap64 (0 * Z.of_nat (sum_sizes (tuple_type T TArgs)))) with 0 by reflexivity.
  change (Z.to_nat 0) with 0%nat. rewrite take_0, file_write_nil.
  destruct s as [f hep vw bs l b]. cbn in *. subst bs. reflexivity.
Qed.

(** C7 (idempotent flush).  With an empty buffer [flush_buffer] returns
    the stream as it was: the file, byte for byte, the put position and
    every counter; flushing again changes nothing either. *)
Theorem flush_empty_buffer_noop (T : scalar_type) (TArgs : list scalar_type)
    (s : NpyStream) :
  buffer_size s = 0 ->
  flush_buffer T TArgs s = s
  /\ content (file (flush_buffer T TArgs s)) = content (file s)
  /\ flush_buffer T TArgs (flush_buffer T TArgs s) = flush_buffer T TArgs s.
Proof.
  intros Hz. rewrite !(flush_buffer_empty T TArgs s Hz). auto.
Qed.

Lemma flush_empty_buffer_noop_witness :
  buffer_size double_stream = 0
  /\ flush_buffer (TFloat Double) [] double_stream = double_stream
  /\ content (file (flush_buffer (TFloat Double) [] double_stream))
     = content (file double_stream)
  /\ flush_buffer (TFloat Double) [] (flush_buffer (TFloat Double) [] double_stream)
     = flush_buffer (TFloat Double) [] double_stream.
Proof.
  split; [reflexivity|].
  apply (flush_empty_buffer_noop (TFloat Double) [] double_stream). reflexivity.
Defined.

(** C8 (buffer capacity).  The capacity is the maximum of 1 and the
    integer quotient of 256 by the record stride: at least one record,
    as many records as fit in 256 bytes when one does, and not one
    fewer. *)
Theorem buffer_capacity_spec (T : scalar_type) (TArgs : list scalar_type) :
  let stride := Z.of_nat (sum_sizes (tuple_type T TArgs)) in
  buffer_capacity T TArgs = Z.max 1 (256 / stride)
  /\ 1 <= buffer_capacity T TArgs
  /\ buffer_capacity T TArgs * stride <= Z.max 256 stride
  /\ 256 < (buffer_capacity T TArgs + 1) * stride.
Proof.
  intros stride. pose proof (stride_pos T TArgs) as Hpos.
  assert (Hs : 0 < stride) by (unfold stride; lia).
  pose proof (Z.mul_div_le 256 stride Hs) as Hle.
  pose proof (Z.mul_succ_div_gt 256 stride Hs) as Hgt.
  assert (Hq : 0 <= 256 / stride) by (apply Z.div_pos; lia).
  unfold buffer_capacity. fold stride.
  split; [reflexivity|].
  destruct (Z.max_spec 1 (256 / stride)) as [[H1 ->]|[H1 ->]];
    destruct (Z.max_spec 256 stride) as [[H2 ->]|[H2 ->]]; nia.
Qed.

(** C9 (the buffer never overflows).  After construction and after
    every sequence of operations the buffer index is at least 0 and
    below the capacity, so the slot the next [operator<<] writes exists;
    that operator leaves the index 0 when it has filled the last slot,
    having flushed, and one higher otherwise. *)
Theorem buffer_never_overflows (native : endian) (T : scalar_type)
    (TArgs : list scalar_type) (lbls : list (list byte))
    (disk disk' : option (list byte)) (s : NpyStream) (ops : list operation) :
  init native T TArgs lbls disk = (disk', inr s) ->
  buffer_size s = 0
  /\ 0 <= buffer_size (run native T TArgs s ops) < buffer_capacity T TArgs
  /\ (Z.to_nat (buffer_size (run native T TArgs s ops))
      < length (buffer (run native T TArgs s ops)))%nat
  /\ forall val,
       buffer_size (put native T TArgs (run native T TArgs s ops) val)
       = if buffer_size (run native T TArgs s ops) + 1 =? buffer_capacity T TArgs
         then 0 else buffer_size (run native T TArgs s ops) + 1.
Proof.
  intros Hinit.
  destruct (init_spec _ _ _ _ _ _ _ Hinit) as (h0' & _ & _ & Hs0 & _).
  destruct (init_inv _ _ _ _ _ _ _ Hinit) as (h0 & _ & Hs & _).
  destruct (run_inv native T TArgs _ _ ops _ Hs) as [_ _ _ Hbs Hbuf _ _].
  pose proof (capacity_bounds T TArgs) as Hcap.
  split; [rewrite Hs0; reflexivity|].
  split; [exact Hbs|]. split; [lia|].
  intros val. unfold put.
  cbn [file header_end_pos labels buffer_size buffer values_written].
  assert (Hw : wrap64 (buffer_size (run native T TArgs s ops) + 1)
               = buffer_size (run native T TArgs s ops) + 1).
  { unfold wrap64. rewrite Z.mod_small; lia. }
  rewrite Hw. destruct (_ =? _); reflexivity.
Qed.

Lemma buffer_never_overflows_witness :
  init Little (TFloat Double) [] [] None = (Some (blank_header 96), inr double_stream)
  /\ buffer_size double_stream = 0
  /\ 0 <= buffer_size (run Little (TFloat Double) [] double_stream
                         [Put [double_of_Z 1]; Put [double_of_Z 2]])
       < buffer_capacity (TFloat Double) []
  /\ (Z.to_nat (buffer_size (run Little (TFloat Double) [] double_stream
                               [Put [double_of_Z 1]; Put [double_of_Z 2]]))
      < length (buffer (run Little (TFloat Double) [] double_stream
                          [Put [double_of_Z 1]; Put [double_of_Z 2]])))%nat
  /\ forall val,
       buffer_size (put Little (TFloat Double) []
                      (run Little (TFloat Double) [] double_stream
                         [Put [double_of_Z 1]; Put [double_of_Z 2]]) val)
       = if buffer_size (run Little (TFloat Double) [] double_stream
                           [Put [double_of_Z 1]; Put [double_of_Z 2]]) + 1
            =? buffer_capacity (TFloat Double) []
         then 0
         else buffer_size (run Little (TFloat Double) [] double_stream
                             [Put [double_of_Z 1]; Put [double_of_Z 2]]) + 1.
Proof.
  split; [reflexivity|].
  apply (buffer_never_overflows Little (TFloat Double) [] [] None
           (Some (blank_header 96)) double_stream
           [Put [double_of_Z 1]; Put [double_of_Z 2]]).
  reflexivity.
Defined.

Lemma records_put_each (data : list scalar) :
  records ((fun v => Put [v]) <$> data) = (fun v => [v]) <$> data.
Proof.
  unfold records. induction data as [|v data IH]; [reflexivity|].
  cbn [fmap list_fmap concat records_of app]. f_equal. exact IH.
Qed.

(** C10 (the buffered path and the block path agree).  On a stream of
    scalars, sending the values of a span one at a time through
    [operator<<] and sending the span through [write] give the same
    count of values written and, once the destructor has run, the same
    file: a file whose data region is the values' bytes in order. *)
Theorem put_each_equals_write_span (native : endian) (T : scalar_type)
    (lbls : list (list byte)) (disk disk' : option (list byte)) (s : NpyStream)
    (data : list scalar) :
  init native T [] lbls disk = (disk', inr s) ->
  Forall (fun v => type_of v = T) data ->
  Z.of_nat (sizeof T) * Z.of_nat (length data) <= UINT64_MAX ->
  values_written (run native T [] s ((fun v => Put [v]) <$> data))
  = values_written (run native T [] s [WriteSpan data])
  /\ close native T [] (run native T [] s ((fun v => Put [v]) <$> data))
     = close native T [] (run native T [] s [WriteSpan data])
  /\ exists f,
       close native T [] (run native T [] s [WriteSpan data]) = inr f
       /\ length (take (Z.to_nat (header_end_pos s)) (content f))
          = Z.to_nat (header_end_pos s)
       /\ drop (Z.to_nat (header_end_pos s)) (content f)
          = concat (object_repr native <$> data).
Proof.
  intros Hinit Hty Hfit.
  pose proof (init_stride _ _ _ _ _ _ _ Hinit) as Hfits.
  destruct (init_inv _ _ _ _ _ _ _ Hinit) as (h0 & Hr & Hs & Hd).
  pose proof (inv_header_end_pos _ _ _ _ _ Hs) as Hhep.
  assert (Hok1 : Forall (operation_ok T []) ((fun v => Put [v]) <$> data)).
  { apply Forall_fmap. eapply Forall_impl; [exact Hty|].
    intros v Hv. simpl. rewrite Hv. reflexivity. }
  assert (Hok2 : Forall (operation_ok T []) [WriteSpan data]).
  { constructor; [|constructor]. simpl. auto. }
  pose proof (run_inv native T [] _ _ ((fun v => Put [v]) <$> data) _ Hs) as Hs1.
  pose proof (run_inv native T [] _ _ [WriteSpan data] _ Hs) as Hs2.
  pose proof (run_data native T [] Hfits _ _ _ _ _ Hs Hd Hok1) as Hd1.
  pose proof (run_data native T [] Hfits _ _ _ _ _ Hs Hd Hok2) as Hd2.
  rewrite app_nil_l, records_put_each in Hd1.
  rewrite app_nil_l in Hd2. unfold records in Hd2.
  cbn [fmap list_fmap concat records_of] in Hd2. rewrite app_nil_r in Hd2.
  destruct (close_spec native T [] _ _ _ _ Hfits Hr Hs1 Hd1)
    as (h1 & h1' & Hr1 & Hp1 & Hclose1 & _ & _).
  destruct (close_spec native T [] _ _ _ _ Hfits Hr Hs2 Hd2)
    as (h2 & h2' & Hr2 & Hp2 & Hclose2 & Hlen & _).
  assert (h1 = h2) by congruence. subst h2.
  assert (h1' = h2') by congruence. subst h2'.
  split.
  { rewrite (inv_values_written _ _ _ _ _ _ Hd1), (inv_values_written _ _ _ _ _ _ Hd2).
    reflexivity. }
  split; [rewrite Hclose1, Hclose2; reflexivity|].
  eexists. split; [exact Hclose2|]. cbn [content].
  rewrite Hhep, Nat2Z.id. split.
  - rewrite take_app_length' by (symmetry; exact Hlen). exact Hlen.
  - rewrite drop_app_length' by (symmetry; exact Hlen). apply concat_singletons.
Qed.

Lemma put_each_equals_write_span_witness :
  init Little (TFloat Double) [] [] None = (Some (blank_header 96), inr double_stream)
  /\ Forall (fun v => type_of v = TFloat Double) [double_of_Z 1; double_of_Z 2; double_of_Z 3]
  /\ Z.of_nat (sizeof (TFloat Double))
     * Z.of_nat (length [double_of_Z 1; double_of_Z 2; double_of_Z 3]) <= UINT64_MAX
  /\ values_written (run Little (TFloat Double) [] double_stream
                       ((fun v => Put [v]) <$> [double_of_Z 1; double_of_Z 2; double_of_Z 3]))
     = values_written (run Little (TFloat Double) [] double_stream
                         [WriteSpan [double_of_Z 1; double_of_Z 2; double_of_Z 3]])
  /\ close Little (TFloat Double) []
       (run Little (TFloat Double) [] double_stream
          ((fun v => Put [v]) <$> [double_of_Z 1; double_of_Z 2; double_of_Z 3]))
     = close Little (TFloat Double) []
         (run Little (TFloat Double) [] double_stream
            [WriteSpan [double_of_Z 1; double_of_Z 2; double_of_Z 3]])
  /\ exists f,
       close Little (TFloat Double) []
         (run Little (TFloat Double) [] double_stream
            [WriteSpan [double_of_Z 1; double_of_Z 2; double_of_Z 3]]) = inr f
       /\ length (take (Z.to_nat (header_end_pos double_stream)) (content f))
          = Z.to_nat (header_end_pos double_stream)
       /\ drop (Z.to_nat (header_end_pos double_stream)) (content f)
          = concat (object_repr Little <$> [double_of_Z 1; double_of_Z 2; double_of_Z 3]).
Proof.
  assert (Hinit : init Little (TFloat Double) [] [] None
                  = (Some (blank_header 96), inr double_stream)) by reflexivity.
  assert (Hty : Forall (fun v => type_of v = TFloat Double)
                  [double_of_Z 1; double_of_Z 2; double_of_Z 3])
    by (repeat constructor).
  assert (Hfit : Z.of_nat (sizeof (TFloat Double))
                 * Z.of_nat (length [double_of_Z 1; double_of_Z 2; double_of_Z 3])
                 <= UINT64_MAX) by (vm_compute; discriminate).
  split; [exact Hinit|]. split; [exact Hty|]. split; [exact Hfit|].
  exact (put_each_equals_write_span Little (TFloat Double) [] None _ double_stream _
           Hinit Hty Hfit).
Defined.

(** * Further properties *)

(** ** The header codec *)

Lemma le_value_le_bytes (n : nat) (z : Z) :
  le_value (le_bytes n z) = z mod 256 ^ Z.of_nat n.
Proof.
  revert z. induction n as [|n IH]; intros z.
  - simpl. rewrite Z.mod_1_r. reflexivity.
  - cbn [le_bytes le_value foldr]. fold (le_value (le_bytes n (z / 256))).
    rewrite IH, Z_of_byte_of_Z.
    replace (Z.of_nat (S n)) with (Z.succ (Z.of_nat n)) by lia.
    rewrite Z.pow_succ_r by lia.
    rewrite Z.rem_mul_r by lia. reflexivity.
Qed.

(** X1.  [append<T>] emits the value least significant byte first on
    either kind of host; the bytes it adds read back as the value
    modulo 2^(8n), and the two length bytes of a header are the case
    [n = 2]. *)
Theorem append_integral_little_endian (native : endian) (n : nat) (lhs : list byte)
    (rhs : Z) :
  append_integral native n lhs rhs = lhs ++ le_bytes n rhs
  /\ le_value (drop (length lhs) (append_integral native n lhs rhs))
     = rhs mod 256 ^ Z.of_nat n
  /\ length (append_integral native n lhs rhs) = (length lhs + n)%nat
  /\ append_uint16 native lhs rhs = append_integral native 2 lhs rhs.
Proof.
  assert (Heq : append_integral native n lhs rhs = lhs ++ le_bytes n rhs).
  { destruct native; unfold append_integral, native_bytes;
      [|rewrite rev_involutive]; reflexivity. }
  rewrite Heq, drop_app_length, le_value_le_bytes, length_app, length_le_bytes.
  repeat split; reflexivity.
Qed.

Lemma finalize_header_size (n : Z) :
  0 <= n -> (16 * ((10 + n) / 16 + 1) - 10 <= 65535 <-> n <= 65525).
Proof.
  intros Hn. Z.div_mod_to_equations. lia.
Qed.

(** X2.  [finalize_header] throws exactly when the dictionary has more
    than 65525 bytes, and then it is the too-large error; every shorter
    dictionary gets a header. *)
Theorem finalize_header_threshold (native : endian) (dict : list byte) :
  (finalize_header native dict = inl HeaderTooLarge <-> 65525 < Z.of_nat (length dict))
  /\ ((exists h, finalize_header native dict = inr h) <-> Z.of_nat (length dict) <= 65525).
Proof.
  rewrite finalize_header_eq. cbv zeta.
  pose proof (finalize_header_size (Z.of_nat (length dict)) ltac:(lia)) as Hsize.
  destruct (65535 <? _) eqn:Hs.
  - apply Z.ltb_lt in Hs. split; split; try (intros [h Hh]; discriminate); intros; lia || reflexivity.
  - apply Z.ltb_ge in Hs. split; split; try discriminate; intros; try lia.
    eexists. reflexivity.
Qed.

Lemma finalize_header_layout (native : endian) (dict h : list byte) :
  finalize_header native dict = inr h ->
  exists p,
    (p <= 15)%nat
    /\ Z.of_nat (length h) <= 65545
    /\ Z.of_nat (length h) = 16 * ((10 + Z.of_nat (length dict)) / 16 + 1)
    /\ h = preamble
           ++ [byte_of_Z (Z.of_nat (length h) - 10);
               byte_of_Z ((Z.of_nat (length h) - 10) / 256)]
           ++ dict ++ replicate p space ++ [newline].
Proof.
  intros Hh. destruct (finalize_header_length _ _ _ Hh) as [Hlen Hmax].
  rewrite finalize_header_eq in Hh. cbv zeta in Hh.
  destruct (65535 <? _) eqn:Hs; [discriminate|]. apply Z.ltb_ge in Hs.
  pose proof (Z.mod_pos_bound (10 + Z.of_nat (length dict)) 16 eq_refl) as Hm.
  exists (Z.to_nat (15 - (10 + Z.of_nat (length dict)) mod 16)).
  split; [lia|]. split; [exact Hmax|]. split; [exact Hlen|].
  rewrite Hlen. injection Hh as <-.
  assert (H0 : 0 <= (10 + Z.of_nat (length dict)) / 16) by (apply Z.div_pos; lia).
  rewrite (Z.mod_small _ 65536) by lia. reflexivity.
Qed.

Lemma length_field_eq (size : Z) (rest : list byte) :
  0 <= size <= 65535 ->
  length_field (preamble ++ [byte_of_Z size; byte_of_Z (size / 256)] ++ rest) = size.
Proof.
  intros Hr. unfold length_field.
  change (drop 8 (preamble ++ [byte_of_Z size; byte_of_Z (size / 256)] ++ rest))
    with ([byte_of_Z size; byte_of_Z (size / 256)] ++ rest).
  unfold le_value. cbn [app firstn foldr]. rewrite ?take_0. cbn [foldr].
  rewrite !Z_of_byte_of_Z. Z.div_mod_to_equations. lia.
Qed.

(** X3.  Every header [finalize_header] returns, on either kind of
    host, starts with the magic string and version 1.0, has a length
    that is a multiple of 16, announces in bytes 8 and 9 its own length
    less ten, and carries after byte 10 the dictionary unchanged, then
    at most fifteen spaces and a newline. *)
Theorem finalize_header_well_formed (native : endian) (dict h : list byte) :
  finalize_header native dict = inr h ->
  take 8 h = preamble
  /\ Z.of_nat (length h) mod 16 = 0
  /\ (16 <= length h)%nat
  /\ length_field h = Z.of_nat (length h) - 10
  /\ exists p, (p <= 15)%nat /\ drop 10 h = dict ++ replicate p space ++ [newline].
Proof.
  intros Hh. destruct (finalize_header_layout _ _ _ Hh) as (p & Hp & Hmax & Hlen & Heq).
  assert (H0 : 0 <= (10 + Z.of_nat (length dict)) / 16) by (apply Z.div_pos; lia).
  remember (Z.of_nat (length h) - 10) as size eqn:Hsize.
  split; [rewrite Heq; reflexivity|].
  split; [rewrite Hlen, Z.mul_comm; apply Z.mod_mul; lia|].
  split; [lia|].
  split; [rewrite Heq; apply length_field_eq; lia|].
  exists p. split; [exact Hp|]. rewrite Heq. reflexivity.
Qed.

Lemma finalize_header_well_formed_witness :
  exists h,
    finalize_header Big (bytes "{'descr': '>i4', }") = inr h
    /\ take 8 h = preamble
    /\ Z.of_nat (length h) mod 16 = 0
    /\ (16 <= length h)%nat
    /\ length_field h = Z.of_nat (length h) - 10
    /\ exists p, (p <= 15)%nat
         /\ drop 10 h = bytes "{'descr': '>i4', }" ++ replicate p space ++ [newline].
Proof.
  eexists. split; [reflexivity|].
  apply (finalize_header_well_formed Big (bytes "{'descr': '>i4', }")). reflexivity.
Defined.

Lemma finalize_declared_count (native : endian) (head h : list byte) (k : Z) :
  0 <= k <= UINT64_MAX ->
  finalize_header native (head ++ bytes "(" ++ to_string k ++ bytes ",), }") = inr h ->
  declared_count h = Some k.
Proof.
  intros Hk Hh. destruct (finalize_header_layout _ _ _ Hh) as (p & _ & _ & _ & Heq).
  destruct (to_string_spec k Hk) as (Hval & Hdigits & Hne).
  rewrite Heq.
  replace (preamble ++ _ ++ (head ++ bytes "(" ++ to_string k ++ bytes ",), }")
           ++ replicate p space ++ [newline])
    with ((preamble ++ [byte_of_Z (Z.of_nat (length h) - 10);
                        byte_of_Z ((Z.of_nat (length h) - 10) / 256)] ++ head)
          ++ bytes "(" ++ to_string k ++ bytes ",), }" ++ replicate p space ++ [newline])
    by (rewrite <- !app_assoc; reflexivity).
  rewrite declared_count_spec by assumption. rewrite Hval. reflexivity.
Qed.

(** X4.  A header rendered for the one-dimensional shape [k], by
    either overload and for either storage order, reads back the count
    [k], for every [k] a [uint64_t] can hold. *)
Theorem rendered_count_reads_back (native : endian) (k : Z) (dtype : byte)
    (wordsize : Z) (labels : list (list byte)) (dtypes : list byte) (sizes : list Z)
    (memory_order : MemoryOrder) :
  0 <= k <= UINT64_MAX ->
  (forall h, create_npy_header native [k] dtype wordsize memory_order = inr h ->
             declared_count h = Some k)
  /\ (forall h, create_npy_header_structured native [k] labels dtypes sizes memory_order
                = inr h ->
                declared_count h = Some k).
Proof.
  intros Hk. split; intros h.
  - unfold create_npy_header, scalar_dict. rewrite append_shape_one, app_assoc.
    apply finalize_declared_count, Hk.
  - unfold create_npy_header_structured.
    destruct (negb _ || negb _ || negb _); [discriminate|].
    unfold structured_dict. rewrite append_shape_one, app_assoc.
    apply finalize_declared_count, Hk.
Qed.

Lemma rendered_count_reads_back_witness :
  0 <= 1234567 <= UINT64_MAX
  /\ (forall h, create_npy_header Little [1234567] "u"%byte 2 Fortran = inr h ->
                declared_count h = Some 1234567)
  /\ (forall h, create_npy_header_structured Little [1234567] [bytes "x"] ["u"%byte] [2]
                  Fortran = inr h ->
                declared_count h = Some 1234567).
Proof.
  assert (Hk : 0 <= 1234567 <= UINT64_MAX) by (vm_compute; split; discriminate).
  split; [exact Hk|].
  exact (rendered_count_reads_back Little 1234567 "u"%byte 2 [bytes "x"] ["u"%byte] [2]
           Fortran Hk).
Defined.

Lemma join_with_cons (sep p : list byte) (ps : list (list byte)) :
  join_with sep (p :: ps) = p ++ concat ((fun q => sep ++ q) <$> ps).
Proof.
  revert p. induction ps as [|q ps IH]; intros p.
  - simpl. rewrite app_nil_r. reflexivity.
  - change (join_with sep (p :: q :: ps)) with (p ++ sep ++ join_with sep (q :: ps)).
    rewrite (IH q). cbn [fmap list_fmap concat].
    rewrite <- app_assoc. reflexivity.
Qed.

Lemma nth_fmap_middle {A B : Type} (g : A -> B) (pre : list A) (x : A) (r : list A)
    (d : B) :
  nth (length pre) (g <$> (pre ++ x :: r)) d = g x.
Proof. induction pre as [|a pre IH]; simpl; auto. Qed.

Lemma fold_shape_extents (shape_pre rest : list Z) :
  forall acc,
    fold_left (fun d i => append_view (append_view d (bytes ", "))
                            (to_string (nth i (shape_pre ++ rest) 0)))
              (seq (length shape_pre) (length rest)) acc
    = acc ++ concat ((fun x => bytes ", " ++ to_string x) <$> rest).
Proof.
  revert shape_pre. induction rest as [|x rest IH]; intros shape_pre acc.
  - simpl. rewrite app_nil_r. reflexivity.
  - cbn [length seq fold_left].
    pose proof (nth_fmap_middle id shape_pre x rest 0) as Hnth.
    rewrite list_fmap_id in Hnth. simpl in Hnth. rewrite Hnth.
    replace (shape_pre ++ x :: rest) with ((shape_pre ++ [x]) ++ rest)
      by (rewrite <- app_assoc; reflexivity).
    replace (S (length shape_pre)) with (length (shape_pre ++ [x]))
      by (rewrite length_app; simpl; lia).
    rewrite IH. unfold append_view. cbn [fmap list_fmap concat].
    rewrite <- !app_assoc. reflexivity.
Qed.

(** X5.  For a shape of any number of dimensions (at least one),
    [append_shape] writes the extents in order, in decimal, separated
    by a comma and a space; a one-dimensional shape, and only that one,
    gets a trailing comma. *)
Theorem append_shape_dimensions (dict : list byte) (d : Z) (ds : list Z) :
  append_shape dict (d :: ds)
  = dict ++ bytes ", 'shape': ("
    ++ join_with (bytes ", ") (to_string <$> (d :: ds))
    ++ match ds with [] => bytes "," | _ :: _ => [] end
    ++ bytes "), }".
Proof.
  unfold append_shape. cbn [length nth].
  replace (S (length ds) - 1)%nat with (length ds) by lia.
  pose proof (fold_shape_extents [d] ds) as Hfold. cbn [app length] in Hfold.
  rewrite Hfold. rewrite fmap_cons, join_with_cons. unfold append_view.
  assert (Hmap : concat ((fun q => bytes ", " ++ q) <$> (to_string <$> ds))
                 = concat ((fun x => bytes ", " ++ to_string x) <$> ds)).
  { rewrite <- list_fmap_compose. reflexivity. }
  rewrite Hmap.
  destruct ds as [|d' ds]; cbn [length Nat.eqb]; rewrite <- !app_assoc; reflexivity.
Qed.

Lemma fold_append_fields (native : endian) (pre rest : list (list byte * byte * Z)) :
  forall acc,
    fold_left (append_field native ((fun f => f.1.1) <$> (pre ++ rest))
                 ((fun f => f.1.2) <$> (pre ++ rest)) ((fun f => f.2) <$> (pre ++ rest)))
              (seq (length pre) (length rest)) acc
    = acc ++ join_with (bytes ", ") (field_entry native <$> rest).
Proof.
  revert pre. induction rest as [|x rest IH]; intros pre acc.
  - simpl. rewrite app_nil_r. reflexivity.
  - cbn [length seq fold_left].
    assert (Hstep : append_field native ((fun f => f.1.1) <$> (pre ++ x :: rest))
                      ((fun f => f.1.2) <$> (pre ++ x :: rest))
                      ((fun f => f.2) <$> (pre ++ x :: rest)) acc (length pre)
                    = acc ++ field_entry native x
                      ++ match rest with [] => [] | _ :: _ => bytes ", " end).
    { unfold append_field. rewrite !nth_fmap_middle.
      rewrite length_fmap, length_app. cbn [length].
      unfold append_view, field_entry.
      assert (Hlast : (length pre + 1 =? length pre + S (length rest))%nat
                      = match rest with [] => true | _ :: _ => false end).
      { destruct rest; [apply Nat.eqb_eq|apply Nat.eqb_neq]; simpl; lia. }
      rewrite Hlast.
      destruct rest as [|y rest]; rewrite ?app_nil_r, <- !app_assoc; reflexivity. }
    rewrite Hstep.
    replace (pre ++ x :: rest) with ((pre ++ [x]) ++ rest)
      by (rewrite <- app_assoc; reflexivity).
    replace (S (length pre)) with (length (pre ++ [x]))
      by (rewrite length_app; simpl; lia).
    rewrite IH. destruct rest as [|y rest].
    + simpl. rewrite !app_nil_r. reflexivity.
    + change (join_with (bytes ", ") (field_entry native <$> x :: y :: rest))
        with (field_entry native x ++ bytes ", "
              ++ join_with (bytes ", ") (field_entry native <$> y :: rest)).
      rewrite <- !app_assoc. reflexivity.
Qed.

Lemma create_npy_header_structured_eq (native : endian) (shape : list Z)
    (fields : list (list byte * byte * Z)) (memory_order : MemoryOrder) :
  create_npy_header_structured native shape ((fun f => f.1.1) <$> fields)
    ((fun f => f.1.2) <$> fields) ((fun f => f.2) <$> fields) memory_order
  = finalize_header native
      (append_shape
         (bytes "{'descr': ["
          ++ join_with (bytes ", ") (field_entry native <$> fields)
          ++ (if (length fields =? 1)%nat then bytes "," else [])
          ++ bytes "], 'fortran_order': "
          ++ memory_order_token memory_order)
         shape).
Proof.
  unfold create_npy_header_structured. rewrite !length_fmap, Nat.eqb_refl. cbn [negb orb].
  f_equal. unfold structured_dict. rewrite length_fmap.
  pose proof (fold_append_fields native [] fields) as Hfold. cbn [app length] in Hfold.
  rewrite Hfold. unfold append_view. cbn [app].
  f_equal. destruct (length fields =? 1)%nat; rewrite <- !app_assoc; reflexivity.
Qed.

(** X6.  For fields given as (label, type code, size), the structured
    overload passes its own length check and describes the fields in
    the order given, each as a pair of the label and the byte-order
    marker of the host followed by type code and size, separated by a
    comma and a space, with a trailing comma when there is exactly one
    field; storage order and shape follow. *)
Theorem structured_dict_fields (native : endian) (shape : list Z)
    (fields : list (list byte * byte * Z)) (memory_order : MemoryOrder) :
  create_npy_header_structured native shape ((fun f => f.1.1) <$> fields)
    ((fun f => f.1.2) <$> fields) ((fun f => f.2) <$> fields) memory_order
  = finalize_header native
      (append_shape
         (bytes "{'descr': ["
          ++ join_with (bytes ", ") (field_entry native <$> fields)
          ++ (if (length fields =? 1)%nat then bytes "," else [])
          ++ bytes "], 'fortran_order': "
          ++ memory_order_token memory_order)
         shape).
Proof. apply create_npy_header_structured_eq. Qed.

(** X7.  [fill] lays the elements of a tuple down one after the other
    from the start of the slot, each in its object representation, and
    touches nothing behind them: a slot at least one record long keeps
    its length and its bytes past the record. *)
Theorem fill_writes_record_only (native : endian) (val : list scalar) (slot : list byte) :
  (sum_sizes (type_of <$> val) <= length slot)%nat ->
  fill native val slot
  = concat (object_repr native <$> val) ++ drop (sum_sizes (type_of <$> val)) slot
  /\ length (fill native val slot) = length slot.
Proof.
  intros Hroom. unfold fill.
  rewrite (fill_from_spec native _ val 0 0 [] slot); [| reflexivity | reflexivity | exact Hroom].
  cbn [app]. split; [reflexivity|].
  rewrite length_app, length_record_bytes, length_drop. lia.
Qed.

Lemma fill_writes_record_only_witness :
  (sum_sizes (type_of <$> [VInt W2 (-2); VUInt W1 255]) <= length (replicate 5 x11))%nat
  /\ fill Big [VInt W2 (-2); VUInt W1 255] (replicate 5 x11)
     = concat (object_repr Big <$> [VInt W2 (-2); VUInt W1 255])
       ++ drop (sum_sizes (type_of <$> [VInt W2 (-2); VUInt W1 255])) (replicate 5 x11)
  /\ length (fill Big [VInt W2 (-2); VUInt W1 255] (replicate 5 x11))
     = length (replicate 5 x11).
Proof.
  assert (Hroom : (sum_sizes (type_of <$> [VInt W2 (-2); VUInt W1 255])
                   <= length (replicate 5 x11))%nat) by (vm_compute; lia).
  split; [exact Hroom|].
  exact (fill_writes_record_only Big [VInt W2 (-2); VUInt W1 255] (replicate 5 x11) Hroom).
Defined.

(** ** Construction outcomes *)

Lemma finalize_header_error (native : endian) (dict : list byte) (e : error) :
  finalize_header native dict = inl e -> e = HeaderTooLarge.
Proof.
  rewrite finalize_header_eq. cbv zeta. destruct (65535 <? _); [|discriminate].
  intros [= <-]. reflexivity.
Qed.

Lemma init_outcome (native : endian) (T : scalar_type) (TArgs : list scalar_type)
    (lbls : list (list byte)) (disk : option (list byte)) :
  let wrong := (length lbls = 0%nat /\ TArgs <> [])
               \/ (length lbls <> 0%nat /\ length lbls <> S (length TArgs)) in
  match init native T TArgs lbls disk with
  | (disk', inl e) =>
      disk' = disk
      /\ (e = LayoutMismatch /\ wrong \/ e = HeaderTooLarge /\ ~ wrong)
  | (disk', inr s) => disk' = Some (content (file s)) /\ ~ wrong /\ labels s = lbls
  end.
Proof.
  intros wrong. unfold init.
  destruct (length lbls =? 0)%nat eqn:H0.
  - apply Nat.eqb_eq in H0.
    destruct (length (tuple_type T TArgs) =? 1)%nat eqn:H1.
    + apply Nat.eqb_eq in H1.
      assert (Hok : ~ wrong).
      { intros [[_ Hne]|[Hne _]]; [|contradiction].
        destruct TArgs; [contradiction|discriminate]. }
      destruct (create_npy_header _ _ _ _ _) as [e|header] eqn:Hr.
      * apply finalize_header_error in Hr. auto.
      * cbn [content file labels]. auto.
    + apply Nat.eqb_neq in H1. split; [reflexivity|]. left. split; [reflexivity|].
      left. split; [exact H0|]. intros ->. apply H1. reflexivity.
  - apply Nat.eqb_neq in H0.
    destruct (length lbls =? length (tuple_type T TArgs))%nat eqn:H1; cbn [negb].
    + apply Nat.eqb_eq in H1.
      assert (Hok : ~ wrong).
      { intros [[Hz _]|[_ Hne]]; [contradiction|]. apply Hne. exact H1. }
      destruct (create_npy_header_structured _ _ _ _ _ _) as [e|header] eqn:Hr.
      * unfold create_npy_header_structured in Hr.
        replace (length (dtypes T TArgs)) with (length lbls) in Hr
          by (unfold dtypes, data_types; rewrite length_fmap; exact H1).
        replace (length (sizes T TArgs)) with (length lbls) in Hr
          by (unfold sizes, element_sizes; rewrite length_fmap; exact H1).
        rewrite Nat.eqb_refl in Hr. cbn [negb orb] in Hr.
        apply finalize_header_error in Hr. auto.
      * cbn [content file labels]. auto.
    + apply Nat.eqb_neq in H1. split; [reflexivity|]. left. split; [reflexivity|].
      right. split; [exact H0|exact H1].
Qed.

(** X8.  When [init] throws it has not touched the path, and it throws
    one of two errors: the labels-size error, exactly when there are no
    labels for several fields or some labels but not one per field, or
    the too-large error of the header codec.  The length check of
    [create_npy_header] itself never fires from a stream. *)
Theorem init_failure (native : endian) (T : scalar_type) (TArgs : list scalar_type)
    (lbls : list (list byte)) (disk disk' : option (list byte)) (e : error) :
  init native T TArgs lbls disk = (disk', inl e) ->
  disk' = disk
  /\ (e = LayoutMismatch \/ e = HeaderTooLarge)
  /\ (e = LayoutMismatch <->
      (length lbls = 0%nat /\ TArgs <> [])
      \/ (length lbls <> 0%nat /\ length lbls <> S (length TArgs))).
Proof.
  intros Hinit. pose proof (init_outcome native T TArgs lbls disk) as Hout.
  cbv zeta in Hout. rewrite Hinit in Hout.
  destruct Hout as [Hdisk [[-> Hwrong]|[-> Hright]]].
  - split; [exact Hdisk|]. split; [auto|]. split; auto.
  - split; [exact Hdisk|]. split; [auto|]. split; [discriminate|]. intros H. contradiction.
Qed.

Lemma init_failure_witness :
  init Big (TInt W4) [] [bytes "a"; bytes "b"] (Some [x2a]) = (Some [x2a], inl LayoutMismatch)
  /\ Some [x2a] = Some [x2a]
  /\ (LayoutMismatch = LayoutMismatch \/ LayoutMismatch = HeaderTooLarge)
  /\ (LayoutMismatch = LayoutMismatch <->
      (length [bytes "a"; bytes "b"] = 0%nat /\ @nil scalar_type <> [])
      \/ (length [bytes "a"; bytes "b"] <> 0%nat
          /\ length [bytes "a"; bytes "b"] <> S (length (@nil scalar_type)))).
Proof.
  split; [reflexivity|].
  apply (init_failure Big (TInt W4) [] [bytes "a"; bytes "b"] (Some [x2a]) (Some [x2a])
           LayoutMismatch).
  reflexivity.
Defined.

(** X9.  Constructing a stream of scalars cannot fail: for every scalar
    type, on either kind of host and whatever the path held, it leaves
    a file of 96 bytes, the eight bytes of magic string and version and
    88 zeros, and an empty stream whose buffer has [256 / sizeof(T)]
    zeroed slots. *)
Theorem scalar_stream_constructs (native : endian) (T : scalar_type)
    (disk : option (list byte)) :
  NpyStream_path native T [] disk
  = (Some (blank_header 96),
     inr {| file := {| content := blank_header 96; pos := 96 |};
            header_end_pos := 96;
            values_written := 0;
            buffer_size := 0;
            labels := [];
            buffer := replicate (Z.to_nat (256 / Z.of_nat (sizeof T)))
                        (replicate (sizeof T) x00) |}).
Proof.
  destruct native, T as [[]|[]|[]|[]]; reflexivity.
Qed.

Lemma length_default_labels (T : scalar_type) (TArgs : list scalar_type) :
  length (default_labels T TArgs) = S (length TArgs).
Proof. unfold default_labels. rewrite length_fmap, length_seq. reflexivity. Qed.

(** X10.  The constructor that makes up the labels f0, f1, ... never
    throws the labels-size error: it either succeeds, with no label for
    a stream of scalars and one label per field otherwise, or throws
    the too-large error and leaves the path as it was. *)
Theorem default_labels_accepted (native : endian) (T : scalar_type)
    (TArgs : list scalar_type) (disk : option (list byte)) :
  match NpyStream_path native T TArgs disk with
  | (disk', inl e) => e = HeaderTooLarge /\ disk' = disk
  | (disk', inr s) =>
      disk' = Some (content (file s))
      /\ length (labels s) = match TArgs with [] => 0%nat | _ :: _ => S (length TArgs) end
  end.
Proof.
  unfold NpyStream_path.
  set (lbls := if (1 <? length (tuple_type T TArgs))%nat then default_labels T TArgs else []).
  assert (Hlen : length lbls = match TArgs with [] => 0%nat | _ :: _ => S (length TArgs) end).
  { unfold lbls. destruct TArgs as [|t ts]; [reflexivity|].
    cbn [tuple_type length Nat.ltb Nat.leb]. apply length_default_labels. }
  pose proof (init_outcome native T TArgs lbls disk) as Hout. cbv zeta in Hout.
  assert (Hright : ~ ((length lbls = 0%nat /\ TArgs <> [])
                      \/ (length lbls <> 0%nat /\ length lbls <> S (length TArgs)))).
  { rewrite Hlen. destruct TArgs; intros [[? ?]|[? ?]]; congruence. }
  destruct (init native T TArgs lbls disk) as [disk' [e|s]].
  - destruct Hout as [Hdisk [[_ Hwrong]|[-> _]]]; [contradiction|auto].
  - destruct Hout as (Hdisk & _ & Hl). rewrite Hl. auto.
Qed.

(** ** What is on disk and what is in the buffer *)

Lemma length_concat_uniform (m : nat) (l : list (list byte)) :
  Forall (fun slot => length slot = m) l -> length (concat l) = (length l * m)%nat.
Proof.
  induction 1 as [|x l Hx _ IH]; [reflexivity|].
  cbn [concat length]. rewrite length_app, Hx, IH. lia.
Qed.

Lemma concat_uniform_inj (m : nat) (l1 : list (list byte)) :
  (0 < m)%nat ->
  forall l2,
    Forall (fun slot => length slot = m) l1 ->
    Forall (fun slot => length slot = m) l2 ->
    concat l1 = concat l2 -> l1 = l2.
Proof.
  intros Hm. induction l1 as [|x l1 IH]; intros l2 H1 H2 Heq.
  - destruct l2 as [|y l2]; [reflexivity|].
    apply Forall_cons in H2 as [Hy _]. apply (f_equal length) in Heq.
    cbn [concat length] in Heq. rewrite length_app in Heq. lia.
  - apply Forall_cons in H1 as [Hx H1].
    destruct l2 as [|y l2].
    + apply (f_equal length) in Heq. cbn [concat length] in Heq.
      rewrite length_app in Heq. lia.
    + apply Forall_cons in H2 as [Hy H2]. cbn [concat] in Heq.
      apply app_inj_1 in Heq as [-> Heq]; [|congruence].
      f_equal. apply IH; assumption.
Qed.

(** X11.  At every moment of a stream's life the file holds, behind
    the reserved header, all the records appended so far but the last
    [buffer_size] ones, whole and in order; those last ones are the
    filled slots of the buffer; and [values_written] is the number of
    records appended, modulo 2^64. *)
Theorem file_holds_all_but_buffered (native : endian) (T : scalar_type)
    (TArgs : list scalar_type) (lbls : list (list byte))
    (disk disk' : option (list byte)) (s : NpyStream) (ops : list operation) :
  init native T TArgs lbls disk = (disk', inr s) ->
  Forall (operation_ok T TArgs) ops ->
  (Z.to_nat (buffer_size (run native T TArgs s ops)) <= length (records ops))%nat
  /\ drop (Z.to_nat (header_end_pos s)) (content (file (run native T TArgs s ops)))
     = concat (record_bytes native <$>
                 take (length (records ops)
                       - Z.to_nat (buffer_size (run native T TArgs s ops)))
                      (records ops))
  /\ take (Z.to_nat (buffer_size (run native T TArgs s ops)))
          (buffer (run native T TArgs s ops))
     = record_bytes native <$>
         drop (length (records ops) - Z.to_nat (buffer_size (run native T TArgs s ops)))
              (records ops)
  /\ values_written (run native T TArgs s ops) = wrap64 (Z.of_nat (length (records ops))).
Proof.
  intros Hinit Hok.
  pose proof (init_stride _ _ _ _ _ _ _ Hinit) as Hfits.
  destruct (init_inv _ _ _ _ _ _ _ Hinit) as (h0 & Hr & Hs & Hd).
  pose proof (inv_header_end_pos _ _ _ _ _ Hs) as Hhep.
  pose proof (run_inv native T TArgs _ _ ops _ Hs) as Hs'.
  pose proof (run_data native T TArgs Hfits _ _ ops _ _ Hs Hd Hok) as Hd'.
  rewrite app_nil_l in Hd'.
  pose proof (records_typed T TArgs ops Hok) as Hty.
  pose proof (stride_pos T TArgs) as Hpos.
  set (s' := run native T TArgs s ops) in *.
  set (recs := records ops) in *.
  set (b := Z.to_nat (buffer_size s')).
  destruct Hs' as [Hn _ _ Hbs Hbuf _ Hhead]. destruct Hd' as [Hslots Hvw Hdata].
  fold b in Hdata.
  rewrite Hhep, Nat2Z.id.
  rewrite <- (take_drop (length h0) (content (file s'))), Hhead, <- app_assoc in Hdata.
  apply app_inv_head in Hdata.
  assert (Hrb : Forall (fun slot => length slot = sum_sizes (tuple_type T TArgs))
                  (record_bytes native <$> recs)).
  { apply Forall_fmap. eapply Forall_impl; [exact Hty|].
    intros val Hval. simpl. rewrite length_record_bytes, Hval. reflexivity. }
  assert (Hlb : length (concat (take b (buffer s')))
                = (b * sum_sizes (tuple_type T TArgs))%nat).
  { rewrite (length_concat_uniform (sum_sizes (tuple_type T TArgs)))
      by (apply Forall_take; exact Hslots).
    rewrite length_take. f_equal. unfold b. lia. }
  assert (Hlr : length (concat (record_bytes native <$> recs))
                = (length recs * sum_sizes (tuple_type T TArgs))%nat).
  { rewrite (length_concat_uniform _ _ Hrb), length_fmap. reflexivity. }
  assert (Hle : (b <= length recs)%nat).
  { apply (f_equal length) in Hdata. rewrite length_app, Hlb, Hlr in Hdata. nia. }
  rewrite <- (take_drop (length recs - b) recs) in Hdata at 1.
  rewrite fmap_app, concat_app in Hdata.
  apply app_inj_2 in Hdata as [Hdisk Hbuffer].
  - split; [exact Hle|]. split; [exact Hdisk|]. split; [|exact Hvw].
    apply (concat_uniform_inj (sum_sizes (tuple_type T TArgs))); [lia| | |exact Hbuffer].
    + apply Forall_take. exact Hslots.
    + rewrite fmap_drop. apply Forall_drop. exact Hrb.
  - rewrite Hlb, (length_concat_uniform (sum_sizes (tuple_type T TArgs))).
    + rewrite length_fmap, length_drop. f_equal. lia.
    + rewrite fmap_drop. apply Forall_drop. exact Hrb.
Qed.

Lemma file_holds_all_but_buffered_witness :
  init Little (TFloat Double) [] [] None = (Some (blank_header 96), inr double_stream)
  /\ Forall (operation_ok (TFloat Double) [])
       [WriteSpan [double_of_Z 1]; Put [double_of_Z 2]; Put [double_of_Z 3]]
  /\ (Z.to_nat (buffer_size (run Little (TFloat Double) [] double_stream
                  [WriteSpan [double_of_Z 1]; Put [double_of_Z 2]; Put [double_of_Z 3]]))
      <= 3)%nat
  /\ drop (Z.to_nat (header_end_pos double_stream))
       (content (file (run Little (TFloat Double) [] double_stream
                  [WriteSpan [double_of_Z 1]; Put [double_of_Z 2]; Put [double_of_Z 3]])))
     = concat (record_bytes Little <$> [[double_of_Z 1]])
  /\ take 2 (buffer (run Little (TFloat Double) [] double_stream
                  [WriteSpan [double_of_Z 1]; Put [double_of_Z 2]; Put [double_of_Z 3]]))
     = record_bytes Little <$> [[double_of_Z 2]; [double_of_Z 3]]
  /\ values_written (run Little (TFloat Double) [] double_stream
                  [WriteSpan [double_of_Z 1]; Put [double_of_Z 2]; Put [double_of_Z 3]])
     = 3.
Proof.
  assert (Hinit : init Little (TFloat Double) [] [] None
                  = (Some (blank_header 96), inr double_stream)) by reflexivity.
  assert (Hok : Forall (operation_ok (TFloat Double) [])
            [WriteSpan [double_of_Z 1]; Put [double_of_Z 2]; Put [double_of_Z 3]]).
  { repeat constructor. vm_compute. discriminate. }
  split; [exact Hinit|]. split; [exact Hok|].
  exact (file_holds_all_but_buffered Little (TFloat Double) [] [] None _ double_stream _
           Hinit Hok).
Defined.

Lemma put_buffer_size (native : endian) (T : scalar_type) (TArgs : list scalar_type)
    (n : nat) (lbls : list (list byte)) (s : NpyStream) (val : list scalar) :
  stream_inv T TArgs n lbls s ->
  buffer_size (put native T TArgs s val)
  = (buffer_size s + 1) mod buffer_capacity T TArgs.
Proof.
  intros [_ _ _ Hbs _ _ _]. pose proof (capacity_bounds T TArgs) as Hcap.
  unfold put. cbn [file header_end_pos labels buffer_size buffer values_written].
  assert (Hw : wrap64 (buffer_size s + 1) = buffer_size s + 1).
  { unfold wrap64. rewrite Z.mod_small; lia. }
  rewrite Hw. destruct (buffer_size s + 1 =? buffer_capacity T TArgs) eqn:Hfull.
  - apply Z.eqb_eq in Hfull. rewrite Hfull, Z.mod_same by lia. reflexivity.
  - apply Z.eqb_neq in Hfull. rewrite Z.mod_small by lia. reflexivity.
Qed.

Lemma write_iter_run (native : endian) (T : scalar_type) (TArgs : list scalar_type)
    (vals : list (list scalar)) :
  forall s, write_iter native T TArgs s vals = run native T TArgs s (Put <$> vals).
Proof.
  induction vals as [|v vals IH]; intros s; [reflexivity|].
  unfold write_iter, run in *. cbn [fmap list_fmap fold_left step]. apply IH.
Qed.

Lemma write_iter_inv_size (native : endian) (T : scalar_type) (TArgs : list scalar_type)
    (n : nat) (lbls : list (list byte)) (vals : list (list scalar)) :
  forall s,
    stream_inv T TArgs n lbls s ->
    buffer_size (write_iter native T TArgs s vals)
    = (buffer_size s + Z.of_nat (length vals)) mod buffer_capacity T TArgs.
Proof.
  pose proof (capacity_bounds T TArgs) as Hcap.
  induction vals as [|v vals IH]; intros s Hs.
  - destruct Hs as [_ _ _ Hbs _ _ _]. cbn [write_iter fold_left length].
    rewrite Z.add_0_r, Z.mod_small by lia. reflexivity.
  - unfold write_iter in *. cbn [fold_left length].
    rewrite (IH _ (put_inv native T TArgs _ _ _ v Hs)).
    rewrite (put_buffer_size native T TArgs n lbls s v Hs).
    rewrite Z.add_mod_idemp_l by lia. f_equal. lia.
Qed.

(** X12.  Writing a range through the iterator overload is one
    [operator<<] per element; it advances the buffer index by the
    number of elements modulo the capacity, so that after a range of
    [n] tuples sent to a stream with [b] buffered ones the buffer holds
    [(b + n) mod capacity] of them. *)
Theorem write_iter_buffer_size (native : endian) (T : scalar_type)
    (TArgs : list scalar_type) (lbls : list (list byte))
    (disk disk' : option (list byte)) (s : NpyStream) (ops : list operation)
    (vals : list (list scalar)) :
  init native T TArgs lbls disk = (disk', inr s) ->
  write_iter native T TArgs (run native T TArgs s ops) vals
  = run native T TArgs s (ops ++ (Put <$> vals))
  /\ buffer_size (write_iter native T TArgs (run native T TArgs s ops) vals)
     = (buffer_size (run native T TArgs s ops) + Z.of_nat (length vals))
       mod buffer_capacity T TArgs.
Proof.
  intros Hinit. destruct (init_inv _ _ _ _ _ _ _ Hinit) as (h0 & _ & Hs & _).
  pose proof (run_inv native T TArgs _ _ ops _ Hs) as Hs'.
  split.
  - rewrite write_iter_run. unfold run. rewrite fold_left_app. reflexivity.
  - apply (write_iter_inv_size native T TArgs _ _ vals _ Hs').
Qed.

Lemma write_iter_buffer_size_witness :
  init Little (TComplex Double) [] [] None = (Some (blank_header 96), inr complex_stream)
  /\ write_iter Little (TComplex Double) []
       (run Little (TComplex Double) [] complex_stream [Put [complex_zero]])
       (replicate 40 [complex_zero])
     = run Little (TComplex Double) [] complex_stream
         ([Put [complex_zero]] ++ (Put <$> replicate 40 [complex_zero]))
  /\ buffer_size
       (write_iter Little (TComplex Double) []
          (run Little (TComplex Double) [] complex_stream [Put [complex_zero]])
          (replicate 40 [complex_zero]))
     = (buffer_size (run Little (TComplex Double) [] complex_stream [Put [complex_zero]])
        + Z.of_nat (length (replicate 40 [complex_zero])))
       mod buffer_capacity (TComplex Double) [].
Proof.
  split; [reflexivity|].
  apply (write_iter_buffer_size Little (TComplex Double) [] [] None
           (Some (blank_header 96)) complex_stream).
  reflexivity.
Defined.

(** X13.  Writing an empty span is a flush and nothing more: the
    pending records go to the file, no byte is added for the span and
    [values_written] stays. *)
Theorem write_empty_span (native : endian) (T : scalar_type) (TArgs : list scalar_type)
    (s : NpyStream) :
  0 <= values_written s < 2 ^ 64 ->
  write native T TArgs s [] = flush_buffer T TArgs s.
Proof.
  intros Hvw. unfold write. cbn [length fmap list_fmap concat].
  rewrite take_nil, Z.add_0_r.
  assert (Hw : wrap64 (values_written s) = values_written s)
    by (unfold wrap64; apply Z.mod_small; exact Hvw).
  destruct (buffer_size s =? 0) eqn:Hz; cbn [negb].
  - apply Z.eqb_eq in Hz. rewrite file_write_nil, Hw.
    rewrite (flush_buffer_empty T TArgs s Hz). destruct s. reflexivity.
  - rewrite file_write_nil. cbn [flush_buffer values_written]. rewrite Hw. reflexivity.
Qed.

Lemma write_empty_span_witness :
  0 <= values_written (put Little (TFloat Double) [] double_stream [double_of_Z 1]) < 2 ^ 64
  /\ write Little (TFloat Double) []
       (put Little (TFloat Double) [] double_stream [double_of_Z 1]) []
     = flush_buffer (TFloat Double) []
         (put Little (TFloat Double) [] double_stream [double_of_Z 1]).
Proof.
  assert (Hvw : 0 <= values_written (put Little (TFloat Double) [] double_stream
                                       [double_of_Z 1]) < 2 ^ 64)
    by (vm_compute; split; [discriminate|reflexivity]).
  split; [exact Hvw|].
  exact (write_empty_span Little (TFloat Double) [] _ Hvw).
Defined.

(** X14.  If the header rendered at close were longer than the space
    reserved for it, the missing padding would wrap around to a count
    near 2^64, the insertion would throw the length error, and
    [wrap_up] would leave without writing to the file: the clamp of the
    count at zero changes nothing, and nothing is truncated. *)
Theorem wrap_up_overrun (native : endian) (file : ofstream) (values_written : Z)
    (header_end_pos : Z) (labels : list (list byte)) (dtypes : list byte)
    (element_sizes : list Z) (h : list byte) :
  render_header native values_written labels dtypes element_sizes = inr h ->
  0 <= header_end_pos < Z.of_nat (length h) ->
  patch_header header_end_pos h = inl LengthError
  /\ wrap_up native file values_written header_end_pos labels dtypes element_sizes
     = inl LengthError.
Proof.
  intros Hr Hhep.
  assert (Hlen : Z.of_nat (length h) <= 65545).
  { destruct (render_header_shape native labels dtypes element_sizes) as [Hbad|[head Hs]].
    - rewrite Hbad in Hr. discriminate.
    - rewrite Hs in Hr. apply (finalize_header_length _ _ _ Hr). }
  assert (Hp : patch_header header_end_pos h = inl LengthError).
  { unfold patch_header.
    assert (Hw : wrap64 (header_end_pos - Z.of_nat (length h))
                 = header_end_pos - Z.of_nat (length h) + 2 ^ 64).
    { unfold wrap64. symmetry. apply Z.mod_unique_pos with (q := -1); lia. }
    rewrite Hw, Z.max_r by lia. unfold vector_max_size.
    destruct (2 ^ 63 - 1 <? _) eqn:Hmax; [reflexivity|]. apply Z.ltb_ge in Hmax. lia. }
  split; [exact Hp|]. unfold wrap_up. rewrite Hr, Hp. reflexivity.
Qed.

Lemma wrap_up_overrun_witness :
  exists h,
    render_header Little 12345 [] ["f"%byte] [8] = inr h
    /\ 0 <= 64 < Z.of_nat (length h)
    /\ patch_header 64 h = inl LengthError
    /\ wrap_up Little {| content := blank_header 64; pos := 64 |} 12345 64 []
         ["f"%byte] [8] = inl LengthError.
Proof.
  eexists. split; [vm_compute; reflexivity|].
  split; [vm_compute; split; [discriminate|reflexivity]|].
  apply (wrap_up_overrun Little {| content := blank_header 64; pos := 64 |} 12345 64 []
           ["f"%byte] [8]).
  - vm_compute. reflexivity.
  - vm_compute. split; [discriminate|reflexivity].
Defined.

(** ** The header a closed file carries *)

Lemma length_field_lookup (l : list byte) (a b : byte) :
  l !! 8%nat = Some a -> l !! 9%nat = Some b ->
  length_field l = Z_of_byte a + 256 * Z_of_byte b.
Proof.
  intros Ha Hb. unfold length_field.
  assert (H0 : drop 8 l !! 0%nat = Some a) by (rewrite lookup_drop; exact Ha).
  assert (H1 : drop 8 l !! 1%nat = Some b) by (rewrite lookup_drop; exact Hb).
  destruct (drop 8 l) as [|x [|y r]]; try discriminate.
  injection H0 as ->. injection H1 as ->.
  unfold le_value. cbn [firstn foldr]. rewrite ?take_0. cbn [foldr]. lia.
Qed.

Section ClosedHeader.

Variable native : endian.
Variable T : scalar_type.
Variable TArgs : list scalar_type.

(** The header of a closed file, byte by byte where [wrap_up] has
    written: seven bytes of the rendered header, the two bytes of the
    length at indices 7 and 8, and at index 9 the high byte of the
    length the header had before padding. *)
Lemma close_header_bytes (lbls : list (list byte)) (disk disk' : option (list byte))
    (s : NpyStream) (ops : list operation) :
  init native T TArgs lbls disk = (disk', inr s) ->
  Forall (operation_ok T TArgs) ops ->
  exists h f,
    render_header native (wrap64 (Z.of_nat (length (records ops)))) lbls
      (dtypes T TArgs) (sizes T TArgs) = inr h
    /\ close native T TArgs (run native T TArgs s ops) = inr f
    /\ 16 <= Z.of_nat (length h) <= header_end_pos s
    /\ header_end_pos s <= 65545
    /\ (Z.to_nat (header_end_pos s) <= length (content f))%nat
    /\ take 7 (content f) = take 7 preamble
    /\ content f !! 7%nat = Some (byte_of_Z ((header_end_pos s - 10) / 256))
    /\ content f !! 8%nat = Some (byte_of_Z ((header_end_pos s - 10) mod 256))
    /\ content f !! 9%nat = Some (byte_of_Z ((Z.of_nat (length h) - 10) / 256))
    /\ declared_count (take (Z.to_nat (header_end_pos s)) (content f))
       = Some (wrap64 (Z.of_nat (length (records ops)))).
Proof.
  intros Hinit Hok.
  pose proof (init_stride _ _ _ _ _ _ _ Hinit) as Hfits.
  destruct (init_inv _ _ _ _ _ _ _ Hinit) as (h0 & Hr & Hs & Hd).
  pose proof (inv_header_end_pos _ _ _ _ _ Hs) as Hhep.
  pose proof (run_inv native T TArgs _ _ ops _ Hs) as Hs'.
  pose proof (run_data native T TArgs Hfits _ _ ops _ _ Hs Hd Hok) as Hd'.
  rewrite app_nil_l in Hd'.
  destruct (close_spec native T TArgs _ _ _ _ Hfits Hr Hs' Hd')
    as (h & h' & Hrk & Hp & Hclose & Hlen & Hcount).
  assert (Hk : 0 <= wrap64 (Z.of_nat (length (records ops))) <= UINT64_MAX).
  { unfold wrap64, UINT64_MAX.
    pose proof (Z.mod_pos_bound (Z.of_nat (length (records ops))) (2 ^ 64) eq_refl). lia. }
  destruct (finalized_header native lbls _ _ h0 _ Hr Hk)
    as (h2 & _ & _ & _ & _ & Hrk2 & Hle & _).
  assert (h2 = h) by congruence. subst h2.
  destruct (render_header_head _ _ _ _ _ _ Hrk) as [Hpre H16].
  destruct (render_header_head _ _ _ _ _ _ Hr) as [_ H16'].
  assert (Hmax : Z.of_nat (length h0) <= 65545).
  { destruct (render_header_shape native lbls (dtypes T TArgs) (sizes T TArgs))
      as [Hbad|[head Hsh]].
    - rewrite Hbad in Hr. discriminate.
    - rewrite Hsh in Hr. apply (finalize_header_length _ _ _ Hr). }
  assert (Hh9 : h !! 9%nat = Some (byte_of_Z ((Z.of_nat (length h) - 10) / 256))).
  { destruct (render_header_shape native lbls (dtypes T TArgs) (sizes T TArgs))
      as [Hbad|[head Hsh]].
    - rewrite Hbad in Hrk. discriminate.
    - rewrite Hsh in Hrk.
      destruct (finalize_header_layout _ _ _ Hrk) as (p & _ & _ & _ & Heq).
      rewrite Heq at 1. reflexivity. }
  destruct (patch_header_length_bytes _ _ _ H16 Hp) as (H7 & H8 & H9 & Htake).
  exists h, {| content := h' ++ concat (record_bytes native <$> records ops);
              pos := length h0 |}.
  cbn [content]. rewrite Hhep, Nat2Z.id.
  split; [exact Hrk|]. split; [exact Hclose|]. split; [lia|]. split; [lia|].
  split; [rewrite length_app; lia|].
  split.
  { rewrite take_app_le by lia. rewrite Htake, <- Hpre, take_take. reflexivity. }
  rewrite !lookup_app_l by lia.
  split; [exact H7|]. split; [exact H8|]. split; [rewrite H9; exact Hh9|].
  rewrite take_app_length' by (symmetry; exact Hlen). exact Hcount.
Qed.

End ClosedHeader.

(** X15.  When the reserved header has at most 265 bytes, which is the
    case of every stream of scalars, the closed file starts with the
    magic string and version 1.0 intact, its length field announces the
    reserved length less ten, and its dictionary declares the number of
    records appended. *)
Theorem small_header_closes_well_formed (native : endian) (T : scalar_type)
    (TArgs : list scalar_type) (lbls : list (list byte))
    (disk disk' : option (list byte)) (s : NpyStream) (ops : list operation) :
  init native T TArgs lbls disk = (disk', inr s) ->
  header_end_pos s <= 265 ->
  Forall (operation_ok T TArgs) ops ->
  Z.of_nat (length (records ops)) <= UINT64_MAX ->
  exists f,
    close native T TArgs (run native T TArgs s ops) = inr f
    /\ take 8 (content f) = preamble
    /\ length_field (content f) = header_end_pos s - 10
    /\ declared_count (take (Z.to_nat (header_end_pos s)) (content f))
       = Some (Z.of_nat (length (records ops))).
Proof.
  intros Hinit Hsmall Hok Hk.
  destruct (close_header_bytes native T TArgs _ _ _ _ _ Hinit Hok)
    as (h & f & _ & Hclose & Hrange & Hmax & Hlen & Htake & H7 & H8 & H9 & Hcount).
  exists f. split; [exact Hclose|].
  assert (Hhi : (header_end_pos s - 10) / 256 = 0) by (apply Z.div_small; lia).
  assert (Hhi' : (Z.of_nat (length h) - 10) / 256 = 0) by (apply Z.div_small; lia).
  rewrite Hhi in H7. rewrite Hhi' in H9.
  split; [|split].
  - rewrite (take_S_r _ 7 _ H7), Htake. reflexivity.
  - rewrite (length_field_lookup _ _ _ H8 H9), !Z_of_byte_of_Z.
    Z.div_mod_to_equations. lia.
  - rewrite Hcount. unfold wrap64. rewrite Z.mod_small; [reflexivity|].
    unfold UINT64_MAX in Hk. lia.
Qed.

Lemma small_header_closes_well_formed_witness :
  init Little (TInt W4) [TFloat Single] [bytes "a"; bytes "b"] None
  = (Some (blank_header 112), inr int_float_stream)
  /\ header_end_pos int_float_stream <= 265
  /\ Forall (operation_ok (TInt W4) [TFloat Single])
       [Put [VInt W4 7; VFloat Single float_2_5]; Flush]
  /\ exists f,
       close Little (TInt W4) [TFloat Single]
         (run Little (TInt W4) [TFloat Single] int_float_stream
            [Put [VInt W4 7; VFloat Single float_2_5]; Flush]) = inr f
       /\ take 8 (content f) = preamble
       /\ length_field (content f) = header_end_pos int_float_stream - 10
       /\ declared_count (take (Z.to_nat (header_end_pos int_float_stream)) (content f))
          = Some 1.
Proof.
  assert (Hinit : init Little (TInt W4) [TFloat Single] [bytes "a"; bytes "b"] None
                  = (Some (blank_header 112), inr int_float_stream)) by reflexivity.
  assert (Hsmall : header_end_pos int_float_stream <= 265) by (vm_compute; discriminate).
  assert (Hok : Forall (operation_ok (TInt W4) [TFloat Single])
                  [Put [VInt W4 7; VFloat Single float_2_5]; Flush])
    by (repeat constructor).
  split; [exact Hinit|]. split; [exact Hsmall|]. split; [exact Hok|].
  apply (small_header_closes_well_formed Little (TInt W4) [TFloat Single] _ None _
           int_float_stream _ Hinit Hsmall Hok).
  vm_compute. discriminate.
Defined.

(** X16.  When the reserved header has 266 bytes or more, the closed
    file has at index 7, where the minor version belongs, the high byte
    of the dictionary length, which is not zero: its first eight bytes
    are no longer the magic string and version 1.0.  Index 9 holds the
    high byte of the length the rendered header had before padding. *)
Theorem large_header_version_overwritten (native : endian) (T : scalar_type)
    (TArgs : list scalar_type) (lbls : list (list byte))
    (disk disk' : option (list byte)) (s : NpyStream) (ops : list operation) :
  init native T TArgs lbls disk = (disk', inr s) ->
  266 <= header_end_pos s ->
  Forall (operation_ok T TArgs) ops ->
  exists h f,
    render_header native (wrap64 (Z.of_nat (length (records ops)))) lbls
      (dtypes T TArgs) (sizes T TArgs) = inr h
    /\ close native T TArgs (run native T TArgs s ops) = inr f
    /\ content f !! 7%nat = Some (byte_of_Z ((header_end_pos s - 10) / 256))
    /\ 1 <= Z_of_byte (byte_of_Z ((header_end_pos s - 10) / 256)) <= 255
    /\ content f !! 9%nat = Some (byte_of_Z ((Z.of_nat (length h) - 10) / 256))
    /\ take 8 (content f) <> preamble.
Proof.
  intros Hinit Hlarge Hok.
  destruct (close_header_bytes native T TArgs _ _ _ _ _ Hinit Hok)
    as (h & f & Hrk & Hclose & Hrange & Hmax & Hlen & Htake & H7 & H8 & H9 & Hcount).
  exists h, f. split; [exact Hrk|]. split; [exact Hclose|]. split; [exact H7|].
  assert (Hhi : 1 <= (header_end_pos s - 10) / 256 <= 255).
  { split; [apply Z.div_le_lower_bound; lia|].
    assert ((header_end_pos s - 10) / 256 < 256)
      by (apply Z.div_lt_upper_bound; lia). lia. }
  assert (Hbyte : Z_of_byte (byte_of_Z ((header_end_pos s - 10) / 256))
                  = (header_end_pos s - 10) / 256).
  { rewrite Z_of_byte_of_Z. apply Z.mod_small. lia. }
  split; [lia|]. split; [exact H9|].
  intros Hpre. apply (f_equal (fun l => l !! 7%nat)) in Hpre.
  rewrite lookup_take_lt, H7 in Hpre by lia.
  change (preamble !! 7%nat) with (Some x00) in Hpre.
  injection Hpre as Hpre. rewrite Hpre in Hbyte.
  change (Z_of_byte x00) with 0 in Hbyte. lia.
Qed.

Lemma large_header_version_overwritten_witness :
  exists disk' s,
    init Little (TFloat Double) eleven_doubles
      (default_labels (TFloat Double) eleven_doubles) None = (disk', inr s)
    /\ 266 <= header_end_pos s
    /\ Forall (operation_ok (TFloat Double) eleven_doubles) [Flush]
    /\ exists h f,
         render_header Little (wrap64 (Z.of_nat (length (records [Flush]))))
           (default_labels (TFloat Double) eleven_doubles)
           (dtypes (TFloat Double) eleven_doubles) (sizes (TFloat Double) eleven_doubles)
         = inr h
         /\ close Little (TFloat Double) eleven_doubles
              (run Little (TFloat Double) eleven_doubles s [Flush]) = inr f
         /\ content f !! 7%nat = Some (byte_of_Z ((header_end_pos s - 10) / 256))
         /\ 1 <= Z_of_byte (byte_of_Z ((header_end_pos s - 10) / 256)) <= 255
         /\ content f !! 9%nat = Some (byte_of_Z ((Z.of_nat (length h) - 10) / 256))
         /\ take 8 (content f) <> preamble.
Proof.
  eexists. eexists.
  split; [vm_compute; reflexivity|].
  split; [vm_compute; discriminate|].
  split; [repeat constructor|].
  eapply (large_header_version_overwritten Little (TFloat Double) eleven_doubles
            (default_labels (TFloat Double) eleven_doubles) None).
  - vm_compute. reflexivity.
  - vm_compute. discriminate.
  - repeat constructor.
Defined.

(** ** Headers that fit *)

Lemma to_string_two_digits (z : Z) : 0 <= z < 100 -> (length (to_string z) <= 2)%nat.
Proof.
  intros Hz. unfold to_string. cbn [to_string_digits].
  destruct (z / 10 =? 0); [simpl; lia|].
  assert (Hq : z / 10 / 10 = 0) by (Z.div_mod_to_equations; lia).
  rewrite Hq. simpl. lia.
Qed.

Lemma length_join_with_cons (sep e : list byte) (es : list (list byte)) :
  (length (join_with sep (e :: es))
   <= length e + length sep + length (join_with sep es))%nat.
Proof.
  destruct es as [|e' es].
  - simpl. lia.
  - change (join_with sep (e :: e' :: es)) with (e ++ sep ++ join_with sep (e' :: es)).
    rewrite !length_app. lia.
Qed.

Lemma length_join_entries (native : endian) (fields : list (list byte * byte * Z)) :
  Forall (fun f => (length (to_string f.2) <= 2)%nat) fields ->
  (length (join_with (bytes ", ") (field_entry native <$> fields))
   <= length (concat ((fun f => f.1.1) <$> fields)) + 14 * length fields)%nat.
Proof.
  induction 1 as [|f fields Hf _ IH]; [simpl; lia|].
  cbn [fmap list_fmap concat length].
  pose proof (length_join_with_cons (bytes ", ") (field_entry native f)
                (field_entry native <$> fields)) as Hstep.
  assert (Hentry : (length (field_entry native f) <= 12 + length f.1.1)%nat).
  { unfold field_entry. rewrite !length_app. simpl length. lia. }
  change (length (bytes ", ")) with 2%nat in Hstep.
  rewrite length_app. unfold fmap in *. lia.
Qed.

Lemma zip_fields (lbls : list (list byte)) (ds : list byte) (zs : list Z) :
  length lbls = length ds -> length ds = length zs ->
  (fun f : list byte * byte * Z => f.1.1) <$> zip (zip lbls ds) zs = lbls
  /\ (fun f : list byte * byte * Z => f.1.2) <$> zip (zip lbls ds) zs = ds
  /\ (fun f : list byte * byte * Z => f.2) <$> zip (zip lbls ds) zs = zs.
Proof.
  revert ds zs. induction lbls as [|l lbls IH]; intros [|d ds] [|z zs] H1 H2;
    try discriminate; [auto|].
  injection H1 as H1. injection H2 as H2.
  destruct (IH ds zs H1 H2) as (E1 & E2 & E3).
  cbn [zip zip_with fmap list_fmap fst snd] in *.
  unfold fmap in *. rewrite E1, E2, E3. auto.
Qed.

(** X17.  With one label per field, construction succeeds whenever the
    labels are short enough for the dictionary to fit its 16-bit length
    field: it is enough that the total length of the labels plus 14
    bytes per field is at most 65451.  The file then holds the blank
    header and the stream keeps the labels. *)
Theorem init_succeeds_when_header_fits (native : endian) (T : scalar_type)
    (TArgs : list scalar_type) (lbls : list (list byte)) (disk : option (list byte)) :
  length lbls = S (length TArgs) ->
  Z.of_nat (length (concat lbls)) + 14 * Z.of_nat (length lbls) <= 65451 ->
  exists s,
    init native T TArgs lbls disk = (Some (content (file s)), inr s)
    /\ labels s = lbls
    /\ content (file s) = blank_header (Z.to_nat (header_end_pos s))
    /\ values_written s = 0
    /\ buffer_size s = 0.
Proof.
  intros Hlen Hfit.
  assert (Hrender : exists h,
            render_header native UINT64_MAX lbls (dtypes T TArgs) (sizes T TArgs) = inr h).
  { unfold render_header.
    replace (length lbls =? 0)%nat with false by (symmetry; apply Nat.eqb_neq; lia).
    set (fields := zip (zip lbls (dtypes T TArgs)) (sizes T TArgs)).
    assert (Hd : length lbls = length (dtypes T TArgs))
      by (unfold dtypes, data_types; rewrite length_fmap; exact Hlen).
    assert (Hz : length (dtypes T TArgs) = length (sizes T TArgs))
      by (unfold dtypes, data_types, sizes, element_sizes; rewrite !length_fmap; reflexivity).
    destruct (zip_fields lbls (dtypes T TArgs) (sizes T TArgs) Hd Hz) as (Hl1 & Hl2 & Hl3).
    fold fields in Hl1, Hl2, Hl3.
    replace (create_npy_header_structured native [UINT64_MAX] lbls (dtypes T TArgs)
               (sizes T TArgs) C)
      with (create_npy_header_structured native [UINT64_MAX]
              ((fun f : list byte * byte * Z => f.1.1) <$> fields)
              ((fun f : list byte * byte * Z => f.1.2) <$> fields)
              ((fun f : list byte * byte * Z => f.2) <$> fields) C)
      by (rewrite Hl1, Hl2, Hl3; reflexivity).
    rewrite create_npy_header_structured_eq, append_shape_one, finalize_header_eq.
    cbv zeta.
    assert (Hsmall : Forall (fun f : list byte * byte * Z =>
                               (length (to_string f.2) <= 2)%nat) fields).
    { assert (Hsz : Forall (fun z => (length (to_string z) <= 2)%nat)
                      ((fun f : list byte * byte * Z => f.2) <$> fields)).
      { rewrite Hl3. unfold sizes, element_sizes. apply Forall_fmap, Forall_forall.
        intros t _. simpl. apply to_string_two_digits.
        destruct t as [[]|[]|[]|[]]; simpl; lia. }
      apply Forall_fmap in Hsz. exact Hsz. }
    pose proof (length_join_entries native fields Hsmall) as Hjoin.
    rewrite Hl1 in Hjoin.
    assert (Hn : length fields = length lbls).
    { transitivity (length ((fun f : list byte * byte * Z => f.1.1) <$> fields));
        [rewrite length_fmap; reflexivity|rewrite Hl1; reflexivity]. }
    rewrite Hn in Hjoin.
    match goal with
    | |- context [65535 <? 16 * ((10 + Z.of_nat (length ?d)) / 16 + 1) - 10] =>
        assert (Hdict : Z.of_nat (length d) <= 65525);
        [|pose proof (proj2 (finalize_header_size (Z.of_nat (length d)) ltac:(lia)) Hdict)
            as Hsize;
          destruct (65535 <? 16 * ((10 + Z.of_nat (length d)) / 16 + 1) - 10) eqn:Hs;
          [apply Z.ltb_lt in Hs; lia|eexists; reflexivity]]
    end.
    rewrite !length_app, to_string_UINT64_MAX.
    assert (Hc : (length (if (length fields =? 1)%nat then bytes "," else []) <= 1)%nat)
      by (destruct (length fields =? 1)%nat; simpl; lia).
    assert (Ht : (length (memory_order_token C) = 5)%nat) by reflexivity.
    change (length (bytes "{'descr': [")) with 11%nat.
    change (length (bytes "], 'fortran_order': ")) with 20%nat.
    change (length (bytes ", 'shape': ")) with 11%nat.
    change (length (bytes "(")) with 1%nat.
    change (length (bytes ",), }")) with 5%nat.
    lia. }
  destruct Hrender as [h Hrender].
  destruct (render_header_head _ _ _ _ _ _ Hrender) as [Hpre H16].
  assert (Hinit : exists s, init native T TArgs lbls disk = (Some (content (file s)), inr s)
                            /\ header_end_pos s = Z.of_nat (length h)
                            /\ content (file s) = blank_header (length h)
                            /\ values_written s = 0 /\ buffer_size s = 0
                            /\ labels s = lbls).
  { unfold init, render_header in *.
    replace (length lbls =? 0)%nat with false in *
      by (symmetry; apply Nat.eqb_neq; lia).
    replace (length lbls =? length (tuple_type T TArgs))%nat with true
      by (symmetry; apply Nat.eqb_eq; exact Hlen).
    cbn [negb]. rewrite Hrender.
    exists {| file := file_write file_open (take 8 h ++ replicate (length h - 8) x00);
              header_end_pos := Z.of_nat (length h);
              values_written := 0;
              buffer_size := 0;
              labels := lbls;
              buffer := replicate (Z.to_nat (buffer_capacity T TArgs))
                          (replicate (sum_sizes (tuple_type T TArgs)) x00) |}.
    split; [reflexivity|].
    cbn [header_end_pos file content values_written buffer_size labels].
    split; [reflexivity|]. split; [|auto].
    unfold file_write, file_open. cbn [content pos].
    rewrite Hpre, take_0, drop_nil, app_nil_r. reflexivity. }
  destruct Hinit as (s & Hinit & Hhep & Hcontent & Hvw & Hbs & Hl).
  exists s. rewrite Hhep, Nat2Z.id. auto.
Qed.

Lemma init_succeeds_when_header_fits_witness :
  length [bytes "time"; bytes "value"] = S (length [TFloat Double])
  /\ Z.of_nat (length (concat [bytes "time"; bytes "value"]))
     + 14 * Z.of_nat (length [bytes "time"; bytes "value"]) <= 65451
  /\ exists s,
       init Big (TUInt W8) [TFloat Double] [bytes "time"; bytes "value"] None
       = (Some (content (file s)), inr s)
       /\ labels s = [bytes "time"; bytes "value"]
       /\ content (file s) = blank_header (Z.to_nat (header_end_pos s))
       /\ values_written s = 0
       /\ buffer_size s = 0.
Proof.
  split; [reflexivity|]. split; [vm_compute; discriminate|].
  apply (init_succeeds_when_header_fits Big (TUInt W8) [TFloat Double]
           [bytes "time"; bytes "value"] None).
  - reflexivity.
  - vm_compute. discriminate.
Defined.

(** X18.  [operator<<] leaves the file alone as long as the tuple does
    not fill the last slot of the buffer.  When it does, the file grows
    by the whole buffer in one piece, the buffered records followed by
    the new one, and the buffer is empty again. *)
Theorem put_writes_whole_buffers (native : endian) (T : scalar_type)
    (TArgs : list scalar_type) (lbls : list (list byte))
    (disk disk' : option (list byte)) (s : NpyStream) (ops : list operation)
    (val : list scalar) :
  init native T TArgs lbls disk = (disk', inr s) ->
  Forall (operation_ok T TArgs) ops ->
  type_of <$> val = tuple_type T TArgs ->
  (buffer_size (run native T TArgs s ops) + 1 < buffer_capacity T TArgs ->
   file (put native T TArgs (run native T TArgs s ops) val)
   = file (run native T TArgs s ops))
  /\ (buffer_size (run native T TArgs s ops) + 1 = buffer_capacity T TArgs ->
      buffer_size (put native T TArgs (run native T TArgs s ops) val) = 0
      /\ content (file (put native T TArgs (run native T TArgs s ops) val))
         = content (file (run native T TArgs s ops))
           ++ concat (take (Z.to_nat (buffer_size (run native T TArgs s ops)))
                        (buffer (run native T TArgs s ops)))
           ++ record_bytes native val).
Proof.
  intros Hinit Hok Hval.
  pose proof (init_stride _ _ _ _ _ _ _ Hinit) as Hfits.
  destruct (init_inv _ _ _ _ _ _ _ Hinit) as (h0 & Hr & Hs & Hd).
  pose proof (run_inv native T TArgs _ _ ops _ Hs) as Hs'.
  pose proof (run_data native T TArgs Hfits _ _ ops _ _ Hs Hd Hok) as Hd'.
  rewrite app_nil_l in Hd'.
  pose proof (capacity_bounds T TArgs) as Hcap.
  set (s' := run native T TArgs s ops) in *.
  pose proof (inv_buffer_size _ _ _ _ _ Hs') as Hbs.
  split.
  - intros Hroom. unfold put.
    cbn [file header_end_pos labels buffer_size buffer values_written].
    assert (Hw : wrap64 (buffer_size s' + 1) = buffer_size s' + 1).
    { unfold wrap64. rewrite Z.mod_small; lia. }
    rewrite Hw.
    destruct (buffer_size s' + 1 =? buffer_capacity T TArgs) eqn:Hfull;
      [apply Z.eqb_eq in Hfull; lia|reflexivity].
  - intros Hfull.
    pose proof (put_buffer_size native T TArgs _ _ _ val Hs') as Hb.
    rewrite Hfull, Z.mod_same in Hb by lia.
    split; [exact Hb|].
    pose proof (put_data native T TArgs Hfits _ _ _ _ val Hs' Hd' Hval) as Hd''.
    destruct Hd'' as [_ _ Hafter]. destruct Hd' as [_ _ Hbefore].
    rewrite Hb in Hafter. change (Z.to_nat 0) with 0%nat in Hafter.
    rewrite take_0, app_nil_r in Hafter.
    rewrite Hafter, fmap_app, concat_app, app_assoc, <- Hbefore, <- app_assoc.
    cbn [fmap list_fmap concat]. rewrite app_nil_r. reflexivity.
Qed.

Lemma put_writes_whole_buffers_witness :
  init Little (TComplex Double) [] [] None = (Some (blank_header 96), inr complex_stream)
  /\ Forall (operation_ok (TComplex Double) []) (Put <$> replicate 15 [complex_zero])
  /\ type_of <$> [complex_zero] = tuple_type (TComplex Double) []
  /\ (buffer_size (run Little (TComplex Double) [] complex_stream
                     (Put <$> replicate 15 [complex_zero])) + 1
      < buffer_capacity (TComplex Double) [] ->
      file (put Little (TComplex Double) []
              (run Little (TComplex Double) [] complex_stream
                 (Put <$> replicate 15 [complex_zero])) [complex_zero])
      = file (run Little (TComplex Double) [] complex_stream
                (Put <$> replicate 15 [complex_zero])))
  /\ (buffer_size (run Little (TComplex Double) [] complex_stream
                     (Put <$> replicate 15 [complex_zero])) + 1
      = buffer_capacity (TComplex Double) [] ->
      buffer_size (put Little (TComplex Double) []
                     (run Little (TComplex Double) [] complex_stream
                        (Put <$> replicate 15 [complex_zero])) [complex_zero]) = 0
      /\ content (file (put Little (TComplex Double) []
                          (run Little (TComplex Double) [] complex_stream
                             (Put <$> replicate 15 [complex_zero])) [complex_zero]))
         = content (file (run Little (TComplex Double) [] complex_stream
                            (Put <$> replicate 15 [complex_zero])))
           ++ concat (take (Z.to_nat (buffer_size
                                        (run Little (TComplex Double) [] complex_stream
                                           (Put <$> replicate 15 [complex_zero]))))
                        (buffer (run Little (TComplex Double) [] complex_stream
                                   (Put <$> replicate 15 [complex_zero]))))
           ++ record_bytes Little [complex_zero]).
Proof.
  assert (Hinit : init Little (TComplex Double) [] [] None
                  = (Some (blank_header 96), inr complex_stream)) by reflexivity.
  assert (Hok : Forall (operation_ok (TComplex Double) [])
                  (Put <$> replicate 15 [complex_zero])) by (repeat constructor).
  assert (Hval : type_of <$> [complex_zero] = tuple_type (TComplex Double) [])
    by reflexivity.
  split; [exact Hinit|]. split; [exact Hok|]. split; [exact Hval|].
  exact (put_writes_whole_buffers Little (TComplex Double) [] [] None _ complex_stream
           _ [complex_zero] Hinit Hok Hval).
Defined.

(** X19.  The header an open stream has reserved is between 16 and
    65536 bytes long and a multiple of 16, and right after construction
    it is the whole file: the first record will start on a 16-byte
    boundary. *)
Theorem data_region_aligned (native : endian) (T : scalar_type)
    (TArgs : list scalar_type) (lbls : list (list byte))
    (disk disk' : option (list byte)) (s : NpyStream) :
  init native T TArgs lbls disk = (disk', inr s) ->
  header_end_pos s mod 16 = 0
  /\ 16 <= header_end_pos s <= 65536
  /\ Z.of_nat (length (content (file s))) = header_end_pos s
  /\ pos (file s) = length (content (file s)).
Proof.
  intros Hinit.
  destruct (init_spec _ _ _ _ _ _ _ Hinit) as (h0 & Hr & _ & -> & _).
  cbn [header_end_pos file content pos].
  destruct (render_header_head _ _ _ _ _ _ Hr) as [_ H16].
  assert (Hlen : Z.of_nat (length h0) mod 16 = 0 /\ Z.of_nat (length h0) <= 65545).
  { destruct (render_header_shape native lbls (dtypes T TArgs) (sizes T TArgs))
      as [Hbad|[head Hsh]].
    - rewrite Hbad in Hr. discriminate.
    - rewrite Hsh in Hr. destruct (finalize_header_length _ _ _ Hr) as [-> Hmax].
      split; [rewrite Z.mul_comm; apply Z.mod_mul; lia|exact Hmax]. }
  destruct Hlen as [Hmod Hmax].
  rewrite length_blank_header by lia.
  split; [exact Hmod|]. split; [|auto].
  split; [lia|]. Z.div_mod_to_equations. lia.
Qed.

Lemma data_region_aligned_witness :
  init Little (TInt W4) [TFloat Single] [bytes "a"; bytes "b"] None
  = (Some (blank_header 112), inr int_float_stream)
  /\ header_end_pos int_float_stream mod 16 = 0
  /\ 16 <= header_end_pos int_float_stream <= 65536
  /\ Z.of_nat (length (content (file int_float_stream))) = header_end_pos int_float_stream
  /\ pos (file int_float_stream) = length (content (file int_float_stream)).
Proof.
  split; [reflexivity|].
  apply (data_region_aligned Little (TInt W4) [TFloat Single] [bytes "a"; bytes "b"] None
           (Some (blank_header 112)) int_float_stream).
  reflexivity.
Defined.
